(** * Battery state-of-charge server: a shallow embedding of [server.py]

    The estimation engine of [server.py] computes on IEEE-754 binary64
    numbers (Python [float], numpy [float64]).  They are modelled by Rocq's
    primitive floats, which are the same format with the same rounding, so
    that every definition below runs on concrete inputs and comparisons
    with NaN and the infinities behave as they do in the interpreter.

    Layout: floats and Python's [min]/[max]; the effect monad (log lines
    and exceptions); the numpy operations the predictor uses; the neural
    predictor; the physics integrator; the two endpoints; then the
    properties. *)

From Stdlib Require Import Floats ZArith List Bool Lia PeanoNat.
Import ListNotations.

Set Warnings "-inexact-float".
Local Open Scope float_scope.

(** ** Floats as the interpreter sees them *)

Module PyFloat.

(** [min(a, b)] and [max(a, b)] of the Python builtins: the first argument
    is kept unless the second compares strictly below (above) it, so a NaN
    in second position is never selected. *)
Definition py_min (a b : float) : float := if b <? a then b else a.
Definition py_max (a b : float) : float := if a <? b then b else a.

(** [max(0.0, min(100.0, r))], the clamp written at lines 93, 151, 166
    and 205. *)
Definition clamp_0_100 (r : float) : float := py_max 0 (py_min 100 r).

(** [0 <= x <= 100] *)
Definition in_0_100 (x : float) : bool := (0 <=? x) && (x <=? 100).

(** Python numbers met in a timestamp list: [range(n)] yields ints, the
    request body yields floats. *)
Inductive pynum : Type :=
  | PyInt (z : Z)
  | PyFlt (f : float).

(** [float(z)] for an int: the nearest binary64, ties to even. *)
Definition float_of_Z (z : Z) : float :=
  SF2Prim (binary_normalize prec emax z 0%Z false).

(** [float(a)] *)
Definition py_float (a : pynum) : float :=
  match a with
  | PyInt z => float_of_Z z
  | PyFlt f => f
  end.

(** [a - b]: exact on two ints, otherwise in binary64 after conversion. *)
Definition py_sub (a b : pynum) : pynum :=
  match a, b with
  | PyInt x, PyInt y => PyInt (x - y)
  | _, _ => PyFlt (py_float a - py_float b)
  end.

End PyFloat.
Export PyFloat.

(** ** Effects: log lines and exceptions

    Every function of [server.py] prints through [log] and may raise; the
    endpoints catch with [try/except].  A computation is its list of log
    lines, in order, with either the exception raised or the value
    returned.  What was printed before an exception stays printed. *)

Module Effects.

Inductive exn : Type :=
  | ValueError      (* numpy: shapes that cannot be stacked, broadcast or multiplied *)
  | IndexError.     (* list index out of range *)

(** The colour codes of lines 10-13. *)
Inductive color : Type := GREEN | YELLOW | RED | BLUE.

(** One constructor per [log(...)] call site, carrying the values the
    message formats. *)
Inductive message : Type :=
  | MsgRunningNN (n : nat)                                  (* line 63 *)
  | MsgNNOutput (first5 : list float)                       (* line 95 *)
  | MsgPhysicsStart (start_soc : float)                     (* line 125 *)
  | MsgNoValidTime                                          (* line 130 *)
  | MsgDischarged (discharge_time : float)                  (* line 145 *)
  | MsgSingleRequest (i v t : float) (time : option float)  (* line 162 *)
  | MsgNNSoc (soc : float)                                  (* line 167 *)
  | MsgErrorPredict (e : exn)                               (* line 170 *)
  | MsgBatchRequest (n : nat)                               (* line 176 *)
  | MsgLengthMismatch                                       (* line 179 *)
  | MsgFinalSoc (first8 : list float)                       (* line 208 *)
  | MsgComplete (points : nat) (discharge_time : option float) (* line 209 *)
  | MsgErrorSimulate (e : exn).                             (* line 218 *)

Definition log_line : Type := (color * message)%type.

Definition Py (A : Type) : Type := (list log_line * (exn + A))%type.

Definition ret {A} (a : A) : Py A := ([], inr a).

Definition raise {A} (e : exn) : Py A := ([], inl e).

Definition bind {A B} (m : Py A) (f : A -> Py B) : Py B :=
  match m with
  | (l, inl e) => (l, inl e)
  | (l, inr a) => let (l', r) := f a in (l ++ l', r)
  end.

(** [log(msg, color)], default colour [BLUE]. *)
Definition log (msg : message) (c : color) : Py unit := ([(c, msg)], inr tt).

(** [try: body except Exception as e: handler(e)] *)
Definition try_except {A} (body : Py A) (handler : exn -> Py A) : Py A :=
  match body with
  | (l, inl e) => let (l', r) := handler e in (l ++ l', r)
  | (l, inr a) => (l, inr a)
  end.

Definition trace {A} (m : Py A) : list log_line := fst m.
Definition outcome {A} (m : Py A) : exn + A := snd m.

(** [l[i]] for [i >= 0], and [l[-1]]. *)
Definition index {A} (l : list A) (i : nat) : Py A :=
  match nth_error l i with
  | Some x => ret x
  | None => raise IndexError
  end.

Definition index_last {A} (l : list A) : Py A :=
  match rev l with
  | x :: _ => ret x
  | [] => raise IndexError
  end.

End Effects.
Export Effects.

Declare Scope py_scope.
Delimit Scope py_scope with py.
Notation "x <- m ;; k" := (bind m (fun x => k))
  (at level 61, m at next level, right associativity) : py_scope.
Notation "m ;; k" := (bind m (fun _ => k))
  (at level 61, right associativity) : py_scope.
Local Open Scope py_scope.

(** ** The numpy operations used by the predictor

    A 2-D array is the list of its rows; the arrays built with
    [reshape(-1, 1)] (biases and bounds) are kept as the list of their
    single column.  Every data matrix below has [n] columns, [n] the batch
    length, which is passed along where the rows alone do not show it. *)

Module Np.

Definition matrix : Type := list (list float).

(** A one-column array as [np.array] builds it from a JSON list of
    numbers: [int64] when every number is written as an integer,
    [float64] otherwise. *)
Inductive vector : Type :=
  | Int64 (l : list Z)
  | Float64 (l : list float).

(** The [float64] values of an array where it meets a [float64] operand
    (type promotion). *)
Definition to_float64 (v : vector) : list float :=
  match v with
  | Int64 l => map float_of_Z l
  | Float64 l => l
  end.

(** [int64] arithmetic wraps around. *)
Definition int64_wrap (z : Z) : Z := ((z + 2 ^ 63) mod 2 ^ 64 - 2 ^ 63)%Z.

(** A finite [float64] scalar stored into an [int64] array: its fraction
    is dropped.  (C leaves the conversion of a NaN or an infinity
    undefined; the only scalar stored this way is [EPS].) *)
Definition int64_of_float (x : float) : Z :=
  match Prim2SF x with
  | S754_finite s m e => int64_wrap (cond_Zopp s (Z.shiftl (Zpos m) e))
  | _ => 0%Z
  end.

(** [np.minimum] and [np.maximum] on two scalars: a NaN operand is
    returned, unlike the builtins [min] and [max]. *)
Definition minimum (in1 in2 : float) : float :=
  if (in1 <=? in2) || is_nan in1 then in1 else in2.
Definition maximum (in1 in2 : float) : float :=
  if (in2 <=? in1) || is_nan in1 then in1 else in2.

(** [np.vstack([a, b, c])] of three 1-D arrays. *)
Definition vstack3 (a b c : list float) : Py matrix :=
  if (length b =? length a)%nat && (length c =? length a)%nat
  then ret [a; b; c]
  else raise ValueError.

Fixpoint zip_with {A B C} (f : A -> B -> C) (l : list A) (l' : list B) : list C :=
  match l, l' with
  | a :: t, b :: t' => f a b :: zip_with f t t'
  | _, _ => []
  end.

(** Broadcasting of a matrix of shape [(r, n)] against a column of shape
    [(k, 1)]: rows pair up when [r = k], a single row or a single column
    entry is repeated, anything else does not broadcast. *)
Definition broadcast (f : float -> float -> float)
    (M : matrix) (col : list float) : Py matrix :=
  if (length M =? length col)%nat then
    ret (zip_with (fun row x => map (fun a => f a x) row) M col)
  else match col, M with
  | [x], _ => ret (map (map (fun a => f a x)) M)
  | _, [row] => ret (map (fun x => map (fun a => f a x) row) col)
  | _, _ => raise ValueError
  end.

(** The same for two columns, shapes [(k, 1)] and [(k', 1)]. *)
Definition broadcast_col {A : Type} (f : A -> A -> A)
    (u v : list A) : Py (list A) :=
  if (length u =? length v)%nat then ret (zip_with f u v)
  else match u, v with
  | _, [y] => ret (map (fun a => f a y) u)
  | [x], _ => ret (map (f x) v)
  | _, _ => raise ValueError
  end.

(** Shape [(r, c)] of a nested list read by [np.array] as a 2-D array:
    at least one row, all rows of one length. *)
Definition shape2 (M : matrix) : option (nat * nat) :=
  match M with
  | [] => None
  | row :: rest =>
      if forallb (fun r => (length r =? length row)%nat) rest
      then Some (length M, length row) else None
  end.

(** [np.dot] hands the product to the BLAS.  The order in which a BLAS
    adds the products, and so the rounding of an entry, depends on the
    library, on the shapes of both operands and on their layout in
    memory: entry [(i, j)] of the product is a function of the two whole
    operands, and the development is parametric in it. *)
Class Blas : Type := { gemm_entry : matrix -> matrix -> nat -> nat -> float }.

(** [np.dot(A, B)] for [A] of shape [(h, k)] and [B] of shape [(k, n)].
    A nested list [A] that is empty or ragged is not a 2-D array; the
    product with it is taken to raise, as a shape mismatch does. *)
Definition dot `{Blas} (A B : matrix) (n : nat) : Py matrix :=
  match shape2 A with
  | Some (h, k) =>
      if (k =? length B)%nat
      then ret (map (fun i => map (fun j => gemm_entry A B i j) (seq 0 n))
                  (seq 0 h))
      else raise ValueError
  | None => raise ValueError
  end.

(** [M.flatten().tolist()] *)
Definition flatten (M : matrix) : list float := concat M.

End Np.

Coercion Np.to_float64 : Np.vector >-> list.

(** ** Configuration and model parameters (lines 29-54) *)

Definition BATTERY_CAPACITY_AH : float := 27.0.
Definition SERIES_CELLS : float := 96.0.
Definition ML_WEIGHT : float := 0.35.
Definition EPS : float := 1e-9.

(** The arrays read from [model_params.json] when the module is loaded.
    [b1], [b2], [x_min] and [x_max] are columns ([reshape(-1, 1)]).  No
    [dtype] is given at lines 45-52, so each array is [int64] or
    [float64] as its JSON list is written.  The weights and the biases
    only ever meet [float64] operands and are kept as the [float64]
    values they are promoted to; for the bounds the type matters
    (lines 76-77) and is kept. *)
Record ModelParams : Type := {
  IW : Np.matrix;
  LW : Np.matrix;
  b1 : list float;
  b2 : list float;
  x_min : Np.vector;
  x_max : Np.vector;
  y_min : float;
  y_max : float
}.

(** The request bodies (lines 101-111). *)
Record InputData : Type := {
  in_current : float;
  in_voltage : float;
  in_temperature : float;
  in_time : option float
}.

Record DriveCycleData : Type := {
  current : list float;
  voltage : list float;
  temperature : list float;
  time : option (list float)
}.

(** The JSON objects the endpoints answer with. *)
Record SingleResponse : Type := { soc_value : option float }.

Record CycleResponse : Type := {
  soc : list float;
  discharge_time : option float;
  total_points : nat
}.

Definition empty_response : CycleResponse :=
  {| soc := []; discharge_time := None; total_points := 0 |}.

(** ** The neural predictor (lines 59-96) *)

Section NeuralNet.

(** [np.tanh] on one float64.  It is the C library's function, which
    binary64 arithmetic does not define; the development is parametric in
    it. *)
Variable tanh : float -> float.

Context `{blas : Np.Blas}.

Variable P : ModelParams.

(** Lines 76-77: [denom = x_max - x_min; denom[denom == 0] = EPS], as the
    [float64] values the division of line 78 reads.  Between two [int64]
    arrays the difference is an [int64] array, and the scalar [EPS]
    stored into it is converted to [int64]; an [int64] array against a
    [float64] one is promoted first. *)
Definition denom : Py (list float) :=
  match x_max P, x_min P with
  | Np.Int64 hi, Np.Int64 lo =>
      d <- Np.broadcast_col (fun a b => Np.int64_wrap (a - b)) hi lo ;;
      ret (map (fun z => float_of_Z
                           (if (z =? 0)%Z then Np.int64_of_float EPS else z)) d)
  | _, _ =>
      d <- Np.broadcast_col sub (x_max P) (x_min P) ;;
      ret (map (fun x => if x =? 0 then EPS else x) d)
  end.

(** Line 74: [np.maximum(x_min, np.minimum(x_max, X))]. *)
Definition clamp_inputs (X : Np.matrix) : Py Np.matrix :=
  X_lo <- Np.broadcast (fun x hi => Np.minimum hi x) X (x_max P) ;;
  Np.broadcast (fun x lo => Np.maximum lo x) X_lo (x_min P).

(** Lines 65-81: from the three channels to [Y_norm]. *)
Definition forward (currents temps voltages : list float) : Py Np.matrix :=
  let n := length currents in
  let cell_voltages := map (fun v => v / SERIES_CELLS) voltages in
  X <- Np.vstack3 currents temps cell_voltages ;;
  X_clamped <- clamp_inputs X ;;
  denom <- denom ;;
  X_shift <- Np.broadcast sub X_clamped (x_min P) ;;
  X_quot <- Np.broadcast div (map (map (fun a => 2.0 * a)) X_shift) denom ;;
  let X_norm := map (map (fun a => a - 1.0)) X_quot in
  A1 <- Np.dot (IW P) X_norm n ;;
  A1b <- Np.broadcast add A1 (b1 P) ;;
  let Z := map (map tanh) A1b in
  A2 <- Np.dot (LW P) Z n ;;
  Np.broadcast add A2 (b2 P).

(** Line 84, on one entry of [Y_norm]. *)
Definition soc_fraction (y : float) : float :=
  (y - (-1.0)) * (y_max P - y_min P) / (1.0 - (-1.0)) + y_min P.

(** Lines 86-89. *)
Definition soc_percent (y : float) : float :=
  if y_max P <? 2.0 then soc_fraction y * 100.0 else soc_fraction y.

Definition run_neural_net_batch (currents temps voltages : list float)
    : Py (list float) :=
  log (MsgRunningNN (length currents)) BLUE ;;
  Y_norm <- forward currents temps voltages ;;
  let result := Np.flatten (map (map soc_percent) Y_norm) in
  let result := map clamp_0_100 result in
  log (MsgNNOutput (firstn 5 result)) YELLOW ;;
  ret result.

End NeuralNet.

(** ** The physics integrator (lines 116-155) *)

(** [list(range(n))] *)
Definition range (n : nat) : list pynum :=
  map (fun i => PyInt (Z.of_nat i)) (seq 0 n).

(** Lines 136-138 at step [i], on the SOC reached so far. *)
Definition step_next_soc (c : float) (ti tprev : pynum) (last_soc : float) : float :=
  let dt := py_float (py_sub ti tprev) in
  let delta_percent := (c * dt) / (BATTERY_CAPACITY_AH * 3600.0) * 100.0 in
  last_soc + delta_percent.

(** Lines 148-151: the ceiling test, then the clamp. *)
Definition ceil_clamp (next_soc : float) : float :=
  let next_soc := if 100.0 <=? next_soc then 100.0 else next_soc in
  clamp_0_100 next_soc.

(** The loop [for i in range(1, n)], over the indices still to visit, with
    the list [phys] built so far.  The early [return] of line 146 ends it;
    otherwise lines 154-155 run after the last index. *)
Fixpoint integrate_loop (currents : list float) (times : list pynum)
    (steps : list nat) (phys : list float) : Py (list float * float) :=
  match steps with
  | [] =>
      t_last <- index_last times ;;
      ret (phys, py_float t_last)
  | i :: rest =>
      ti <- index times i ;;
      tprev <- index times (i - 1) ;;
      c <- index currents (i - 1) ;;
      last_soc <- index_last phys ;;
      let next_soc := step_next_soc c ti tprev last_soc in
      if next_soc <=? 0.0 then
        let phys := phys ++ [0.0] in
        let discharge_time := py_float ti in
        log (MsgDischarged discharge_time) RED ;;
        ret (phys, discharge_time)
      else
        integrate_loop currents times rest (phys ++ [ceil_clamp next_soc])
  end.

(** Lines 129-131: the time basis actually used. *)
Definition time_basis (n : nat) (times : option (list pynum)) : Py (list pynum) :=
  match times with
  | Some ts =>
      if (length ts =? n)%nat then ret ts
      else (log MsgNoValidTime YELLOW ;; ret (range n))
  | None => log MsgNoValidTime YELLOW ;; ret (range n)
  end.

Definition physics_integrate_soc (currents : list float)
    (times : option (list pynum)) (start_soc : float) : Py (list float * float) :=
  log (MsgPhysicsStart start_soc) BLUE ;;
  let n := length currents in
  let phys := [start_soc] in
  times <- time_basis n times ;;
  integrate_loop currents times (seq 1 (n - 1)) phys.

(** ** The endpoints (lines 160-219) *)

(** Lines 195-206, the value appended at index [idx]. *)
Definition fuse_at (phys_socs nn_socs : list float) (idx : nat) : float :=
  let ph := nth idx phys_socs 0 in
  let ml := if (idx <? length nn_socs)%nat then nth idx nn_socs 0 else ph in
  if ph <=? 0.0 then 0.0
  else clamp_0_100 (ML_WEIGHT * ml + (1.0 - ML_WEIGHT) * ph).

(** The fusion loop: one value appended per index of [phys_socs]. *)
Definition fuse (phys_socs nn_socs : list float) : list float :=
  map (fuse_at phys_socs nn_socs) (seq 0 (length phys_socs)).

(** Line 188. *)
Definition choose_start_soc (nn_socs : list float) : float :=
  match nn_socs with
  | first :: _ => if (0 <=? first) && (first <=? 100) then first else 100.0
  | [] => 100.0
  end.

(** Line 182: an absent or empty list, or one of another length, is
    dropped. *)
Definition choose_times (n : nat) (t : option (list float)) : option (list pynum) :=
  match t with
  | Some (x :: l) =>
      if (length (x :: l) =? n)%nat then Some (map PyFlt (x :: l)) else None
  | _ => None
  end.

Section Endpoints.

Variable tanh : float -> float.
Context `{blas : Np.Blas}.
Variable P : ModelParams.

Definition predict_single (data : InputData) : Py SingleResponse :=
  log (MsgSingleRequest (in_current data) (in_voltage data)
         (in_temperature data) (in_time data)) BLUE ;;
  try_except
    (nn_result <- run_neural_net_batch tanh P
        [in_current data] [in_temperature data] [in_voltage data] ;;
     first <- index nn_result 0 ;;
     let soc := clamp_0_100 first in
     log (MsgNNSoc soc) GREEN ;;
     ret {| soc_value := Some soc |})
    (fun e =>
     log (MsgErrorPredict e) RED ;;
     ret {| soc_value := None |}).

Definition predict_cycle (data : DriveCycleData) : Py CycleResponse :=
  let n := length (current data) in
  log (MsgBatchRequest n) BLUE ;;
  try_except
    (if negb ((length (temperature data) =? n)%nat
              && (length (voltage data) =? n)%nat)
     then
       log MsgLengthMismatch RED ;;
       ret empty_response
     else
       let times := choose_times n (time data) in
       nn_socs <- run_neural_net_batch tanh P
           (current data) (temperature data) (voltage data) ;;
       let START_SOC := choose_start_soc nn_socs in
       r <- physics_integrate_soc (current data) times START_SOC ;;
       let (phys_socs, discharge_time) := r in
       let final_socs := fuse phys_socs nn_socs in
       log (MsgFinalSoc (firstn 8 final_socs)) GREEN ;;
       log (MsgComplete (length final_socs) (Some discharge_time)) GREEN ;;
       ret {| soc := final_socs;
              discharge_time := Some discharge_time;
              total_points := length final_socs |})
    (fun e =>
     log (MsgErrorSimulate e) RED ;;
     ret empty_response).

End Endpoints.

(** ** Vocabulary of the statements *)

(** The shapes of a parameter bundle as the network needs them: [IW] is
    [(H, 3)] with [H >= 1], [LW] is [(1, H)], [b1] has [H] entries, [b2]
    one, and the input bounds three. *)
Definition valid_shapes (P : ModelParams) : bool :=
  match Np.shape2 (IW P), Np.shape2 (LW P) with
  | Some (h, 3%nat), Some (1%nat, h') =>
      (h' =? h)%nat && (length (b1 P) =? h)%nat && (length (b2 P) =? 1)%nat
      && (length (x_min P) =? 3)%nat && (length (x_max P) =? 3)%nat
  | _, _ => false
  end.

(** A matrix of [r] rows and [n] columns. *)
Definition has_shape (r n : nat) (M : Np.matrix) : Prop :=
  length M = r /\ Forall (fun row => length row = n) M.

(** One entry of [X_clamped], for the bounds [lo] and [hi] of its
    channel. *)
Definition saturate (lo hi x : float) : float :=
  Np.maximum lo (Np.minimum hi x).

(** The denormalization and the scale policy as the specification words
    them, to be compared with [soc_fraction] and [soc_percent]. *)
Definition denormalize_spec (outputMin outputMax yNorm : float) : float :=
  (yNorm + 1) * (outputMax - outputMin) / 2 + outputMin.

Definition scale_policy_spec (outputMax frac : float) : float :=
  if outputMax <? 2.0 then frac * 100 else frac.

(** The time basis of [physics_integrate_soc] as a value. *)
Definition effective_times (n : nat) (times : option (list pynum)) : list pynum :=
  match times with
  | Some ts => if (length ts =? n)%nat then ts else range n
  | None => range n
  end.

(** [nextSoc] of step [i], read off a trajectory: the element before
    position [i] plus the charge moved during the step. *)
Definition next_soc_at (currents : list float) (ts : list pynum)
    (traj : list float) (i : nat) : float :=
  step_next_soc (nth (i - 1) currents 0) (nth i ts (PyInt 0))
    (nth (i - 1) ts (PyInt 0)) (nth (i - 1) traj 0).

(** A timestamp list that reads [0, 1, ..., n-1], as ints or as floats:
    entry [i] converts to [float(i)] and consecutive entries differ by
    one. *)
Definition unit_spaced (n : nat) (ts : list pynum) : Prop :=
  length ts = n /\
  forall i, (i < n)%nat ->
    py_float (nth i ts (PyInt 0)) = float_of_Z (Z.of_nat i) /\
    ((1 <= i)%nat ->
     py_float (py_sub (nth i ts (PyInt 0)) (nth (i - 1) ts (PyInt 0))) = 1.0).

(** An executable stand-in for [np.tanh], used only to run the model on
    concrete requests: odd, bounded by one, and exact at zero, where the
    C function returns zero as well. *)
Definition tanh_ref (x : float) : float := x / (1.0 + abs x).

(** An executable stand-in for the BLAS, used only to run the model on
    concrete requests: every entry is the inner product of a row and a
    column, added from the left. *)
Definition inner_ref (u v : list float) : float :=
  fold_left (fun acc p => acc + fst p * snd p) (combine u v) 0.

Definition blas_ref : Np.Blas :=
  {| Np.gemm_entry A B i j :=
       inner_ref (nth i A []) (map (fun row => nth j row 0) B) |}.


(** The value the loop stores at position [i], from [nextSoc] there. *)
Definition stored_value (next_soc : float) : float :=
  if next_soc <=? 0 then 0
  else if 100 <=? next_soc then 100
  else if next_soc <? 100 then next_soc
  else 100.

(** ** Sample bundles and requests *)

(** Two hidden units, a fractional output range, and a voltage channel
    whose bounds coincide ([x_min = x_max = 3.0]), all written as floats. *)
Definition sample_bundle : ModelParams :=
  {| IW := [[0.5; 0.25; 1]; [1; -1; 0.5]];
     LW := [[0.5; 0.25]];
     b1 := [0.1; 0.2];
     b2 := [0.05];
     x_min := Np.Float64 [-10; 0; 3];
     x_max := Np.Float64 [10; 50; 3];
     y_min := 0;
     y_max := 1 |}.

(** The same bundle with its bounds written as integers in the JSON file:
    both bound arrays are [int64]. *)
Definition integer_bounds_bundle : ModelParams :=
  {| IW := [[0.5; 0.25; 1]; [1; -1; 0.5]];
     LW := [[0.5; 0.25]];
     b1 := [0.1; 0.2];
     b2 := [0.05];
     x_min := Np.Int64 [-10; 0; 3]%Z;
     x_max := Np.Int64 [10; 50; 3]%Z;
     y_min := 0;
     y_max := 1 |}.

(** Finite coefficients whose output range overflows binary64:
    [y_max - y_min] is [+inf]. *)
Definition overflow_bundle : ModelParams :=
  {| IW := [[0; 0; 0]];
     LW := [[0]];
     b1 := [0];
     b2 := [0];
     x_min := Np.Float64 [0; 0; 0];
     x_max := Np.Float64 [1; 1; 1];
     y_min := -1e308;
     y_max := 1e308 |}.

(** A malformed bundle: two upper bounds for three channels. *)
Definition short_bounds_bundle : ModelParams :=
  {| IW := [[0.5; 0.25; 1]; [1; -1; 0.5]];
     LW := [[0.5; 0.25]];
     b1 := [0.1; 0.2];
     b2 := [0.05];
     x_min := Np.Float64 [-10; 0; 3];
     x_max := Np.Float64 [10; 50];
     y_min := 0;
     y_max := 1 |}.

(** Five samples of a constant discharge, ten seconds apart: 40 percent
    of the capacity leaves at every step. *)
Definition discharge_currents : list float := [-3888; -3888; -3888; -3888; -3888].

Definition ten_second_times : list pynum := map PyFlt [0; 10; 20; 30; 40].

(** One sample: no current, 25 degrees, 345.6 V across the pack. *)
Definition sample_point : InputData :=
  {| in_current := 0; in_voltage := 345.6; in_temperature := 25;
     in_time := None |}.

(** Five currents against four voltages. *)
Definition mismatched_cycle : DriveCycleData :=
  {| current := [0; 1; 2; 3; 4];
     voltage := [345.6; 340; 330; 320];
     temperature := [25; 26; 27; 28; 29];
     time := None |}.

Definition sample_cycle : DriveCycleData :=
  {| current := [0; 1; 2];
     voltage := [345.6; 340; 330];
     temperature := [25; 26; 27];
     time := None |}.

(** * Properties *)

(** ** Facts on binary64 comparisons

    The primitive operations are specified by the standard library through
    their image in [spec_float]; the lemmas below are the few consequences
    the development needs. *)

Section FloatFacts.

Lemma Prim2SF_0 : Prim2SF 0 = S754_zero false.
Proof. reflexivity. Qed.

Lemma Prim2SF_100 : Prim2SF 100 = S754_finite false 7036874417766400 (-46).
Proof. reflexivity. Qed.

Lemma Prim2SF_infinity : Prim2SF infinity = S754_infinity false.
Proof. reflexivity. Qed.

Lemma ltb_leb (x y : float) : (x <? y) = true -> (x <=? y) = true.
Proof.
  rewrite ltb_spec, leb_spec. unfold SFltb, SFleb.
  destruct (SFcompare (Prim2SF x) (Prim2SF y)) as [[]|]; congruence.
Qed.

Lemma ltb_0_not_eqb (x : float) : (0 <? x) = true -> (x =? 0) = false.
Proof.
  rewrite ltb_spec, FloatAxioms.eqb_spec, Prim2SF_0. unfold SFltb, SFeqb.
  destruct (Prim2SF x) as [s|s| |s m e]; simpl; try congruence;
    destruct s; simpl; congruence.
Qed.

(** On a number that is not a NaN, the order against zero is total. *)
Lemma not_leb_0_ltb (x y : float) :
  (x <=? 0) = false -> (x <? y) = true -> (0 <? x) = true.
Proof.
  rewrite leb_spec, !ltb_spec, Prim2SF_0. unfold SFleb, SFltb.
  destruct (Prim2SF x) as [s|s| |s m e]; simpl; try congruence;
    destruct s; simpl; congruence.
Qed.

Lemma eqb_self_finite (s : bool) (m : positive) (e : Z) :
  SFeqb (S754_finite s m e) (S754_finite s m e) = true.
Proof.
  unfold SFeqb; simpl.
  rewrite Z.compare_refl, Pos.compare_cont_refl.
  destruct s; reflexivity.
Qed.

Lemma in_0_100_finite (x : float) : in_0_100 x = true -> is_finite x = true.
Proof.
  unfold in_0_100, is_finite, is_nan, is_infinity.
  rewrite andb_true_iff, !leb_spec, !FloatAxioms.eqb_spec, abs_spec.
  rewrite Prim2SF_0, Prim2SF_100, Prim2SF_infinity.
  destruct (Prim2SF x) as [s|s| |s m e]; intros [H0 H1].
  - reflexivity.
  - destruct s; [vm_compute in H0 | vm_compute in H1]; discriminate.
  - vm_compute in H0; discriminate.
  - rewrite eqb_self_finite. reflexivity.
Qed.

Lemma clamp_0_100_range (r : float) : in_0_100 (clamp_0_100 r) = true.
Proof.
  unfold clamp_0_100, py_min, py_max, in_0_100.
  destruct (r <? 100) eqn:E1.
  - destruct (0 <? r) eqn:E2.
    + now rewrite (ltb_leb _ _ E1), (ltb_leb _ _ E2).
    + reflexivity.
  - reflexivity.
Qed.

End FloatFacts.

(** ** Facts on binary64 subtraction *)

Section FloatSub.

Lemma sub_neg_one (y : float) : y - (-1.0) = y + 1.0.
Proof.
  apply Prim2SF_inj. rewrite sub_spec, add_spec.
  replace (Prim2SF (-1.0)) with (SFopp (Prim2SF 1.0)) by reflexivity.
  generalize (Prim2SF 1.0); intros o.
  unfold SF64sub, SF64add.
  destruct (Prim2SF y) as [s|s| |s m e], o as [s'|s'| |s' m' e'];
    simpl; try reflexivity; destruct s, s'; reflexivity.
Qed.

Lemma is_finite_SF (x : float) :
  is_finite x = true ->
  (exists s, Prim2SF x = S754_zero s) \/
  (exists s m e, Prim2SF x = S754_finite s m e).
Proof.
  unfold is_finite, is_nan, is_infinity.
  rewrite !FloatAxioms.eqb_spec, abs_spec, Prim2SF_infinity.
  destruct (Prim2SF x) as [s|s| |s m e]; intros H.
  - left; eauto.
  - destruct s; vm_compute in H; discriminate.
  - vm_compute in H; discriminate.
  - right; eauto.
Qed.

Lemma SFcompare_finite_Eq s m e s' m' e' :
  SFcompare (S754_finite s m e) (S754_finite s' m' e') = Some Eq ->
  s = s' /\ m = m' /\ e = e'.
Proof.
  simpl.
  destruct s, s'; try discriminate;
    destruct (Z.compare e e') eqn:Ee; try discriminate;
    destruct (Pos.compare_cont Eq m m') eqn:Em; try discriminate; intros _;
    apply Z.compare_eq in Ee; apply Pos.compare_eq in Em; auto.
Qed.

Lemma SFsub_diag_finite s m e :
  SF64sub (S754_finite s m e) (S754_finite s m e) = S754_zero false.
Proof.
  unfold SF64sub, SFsub. rewrite Z.min_id, Z.sub_diag. reflexivity.
Qed.

(** Two equal finite numbers have a zero difference. *)
Lemma sub_eq_zero (x y : float) :
  is_finite x = true -> (x =? y) = true -> (x - y =? 0) = true.
Proof.
  intros Hf. rewrite !FloatAxioms.eqb_spec, sub_spec, Prim2SF_0.
  unfold SFeqb at 1.
  destruct (SFcompare (Prim2SF x) (Prim2SF y)) as [[]|] eqn:Ec;
    try discriminate.
  intros _.
  destruct (is_finite_SF x Hf) as [[s Hx]|[s [m [e Hx]]]]; rewrite Hx in *.
  - destruct (Prim2SF y) as [s'|s'| |s' m' e']; simpl in Ec.
    + destruct s, s'; reflexivity.
    + destruct s'; discriminate.
    + discriminate.
    + destruct s'; discriminate.
  - destruct (Prim2SF y) as [s'|s'| |s' m' e'].
    + simpl in Ec. destruct s; discriminate.
    + simpl in Ec. destruct s'; discriminate.
    + discriminate.
    + apply SFcompare_finite_Eq in Ec. destruct Ec as [-> [-> ->]].
      rewrite SFsub_diag_finite. reflexivity.
Qed.

End FloatSub.

(** ** Facts on the binary64 order *)

Section FloatOrder.

Lemma SFcompare_antisym (a b : spec_float) :
  SFcompare b a = option_map CompOpp (SFcompare a b).
Proof.
  destruct a as [s|s| |s m e], b as [s'|s'| |s' m' e']; simpl;
    try reflexivity; try (destruct s; reflexivity);
    try (destruct s'; reflexivity); try (destruct s, s'; reflexivity).
  rewrite (Z.compare_antisym e e').
  replace (Pos.compare_cont Eq m' m) with (CompOpp (Pos.compare_cont Eq m m'))
    by apply (Pos.compare_cont_antisym m m' Eq).
  destruct s, s'; simpl; try reflexivity;
    destruct (Z.compare e e'); simpl; try reflexivity;
    destruct (Pos.compare_cont Eq m m'); reflexivity.
Qed.

Lemma SFcompare_refl (a : spec_float) :
  a <> S754_nan -> SFcompare a a = Some Eq.
Proof.
  destruct a as [s|s| |s m e]; simpl; intros H; try congruence.
  - destruct s; reflexivity.
  - rewrite Z.compare_refl, Pos.compare_cont_refl. destruct s; reflexivity.
Qed.

Lemma is_nan_SF (x : float) : is_nan x = false <-> Prim2SF x <> S754_nan.
Proof.
  unfold is_nan. rewrite FloatAxioms.eqb_spec. unfold SFeqb. split.
  - intros H E. rewrite E in H. discriminate.
  - intros H. now rewrite SFcompare_refl.
Qed.

Lemma leb_refl (x : float) : is_nan x = false -> (x <=? x) = true.
Proof.
  rewrite is_nan_SF, leb_spec. unfold SFleb. intros H.
  now rewrite SFcompare_refl.
Qed.

Lemma leb_total (x y : float) :
  is_nan x = false -> is_nan y = false -> (x <=? y) = false -> (y <=? x) = true.
Proof.
  rewrite !is_nan_SF, !leb_spec. unfold SFleb.
  rewrite (SFcompare_antisym (Prim2SF x) (Prim2SF y)).
  destruct (SFcompare (Prim2SF x) (Prim2SF y)) as [[]|] eqn:E; simpl;
    try congruence.
  intros Hx Hy _. exfalso.
  destruct (Prim2SF x) as [s|s| |s m e], (Prim2SF y) as [s'|s'| |s' m' e'];
    simpl in E; congruence.
Qed.

Lemma leb_not_nan (x y : float) :
  (x <=? y) = true -> is_nan x = false /\ is_nan y = false.
Proof.
  rewrite !is_nan_SF, leb_spec. unfold SFleb.
  destruct (Prim2SF x) as [s|s| |s m e], (Prim2SF y) as [s'|s'| |s' m' e'];
    simpl; split; congruence.
Qed.

(** Between ordered bounds, a number that is not a NaN is saturated. *)
Lemma saturate_range (lo hi x : float) :
  (lo <=? hi) = true -> is_nan x = false ->
  (lo <=? saturate lo hi x) = true /\ (saturate lo hi x <=? hi) = true.
Proof.
  intros Hlh Hx. destruct (leb_not_nan lo hi Hlh) as [Hlo Hhi].
  unfold saturate, Np.minimum, Np.maximum. rewrite Hlo, Hhi, !orb_false_r.
  destruct (hi <=? x) eqn:E1.
  - destruct (hi <=? lo) eqn:E2.
    + split; [now apply leb_refl|assumption].
    + split; [assumption|now apply leb_refl].
  - destruct (x <=? lo) eqn:E2.
    + split; [now apply leb_refl|assumption].
    + split; now apply leb_total.
Qed.

End FloatOrder.

(** ** Laws of the effect monad *)

Section MonadLaws.

Context {A B : Type}.

Lemma outcome_bind (m : Py A) (f : A -> Py B) :
  outcome (bind m f) =
  match outcome m with
  | inl e => inl e
  | inr a => outcome (f a)
  end.
Proof.
  destruct m as [l [e|a]]; simpl; [reflexivity|].
  destruct (f a); reflexivity.
Qed.

Lemma trace_bind (m : Py A) (f : A -> Py B) :
  trace (bind m f) =
  trace m ++ match outcome m with
             | inl _ => []
             | inr a => trace (f a)
             end.
Proof.
  destruct m as [l [e|a]]; simpl; [now rewrite app_nil_r|].
  destruct (f a); reflexivity.
Qed.

Lemma outcome_try_except (body : Py A) (handler : exn -> Py A) :
  outcome (try_except body handler) =
  match outcome body with
  | inl e => outcome (handler e)
  | inr a => inr a
  end.
Proof.
  destruct body as [l [e|a]]; simpl; [|reflexivity].
  destruct (handler e); reflexivity.
Qed.


End MonadLaws.

(** ** Fusion *)

Section Fusion.

Lemma fuse_length (phys_socs nn_socs : list float) :
  length (fuse phys_socs nn_socs) = length phys_socs.
Proof. unfold fuse. now rewrite length_map, length_seq. Qed.

Lemma fuse_nth (phys_socs nn_socs : list float) (idx : nat) :
  (idx < length phys_socs)%nat ->
  nth idx (fuse phys_socs nn_socs) 0 = fuse_at phys_socs nn_socs idx.
Proof.
  intros H. unfold fuse.
  rewrite (nth_indep _ 0 (fuse_at phys_socs nn_socs 0))
    by now rewrite length_map, length_seq.
  rewrite map_nth, seq_nth by assumption. reflexivity.
Qed.

Lemma fuse_at_range (phys_socs nn_socs : list float) (idx : nat) :
  in_0_100 (fuse_at phys_socs nn_socs idx) = true.
Proof.
  unfold fuse_at. destruct (nth idx phys_socs 0 <=? 0).
  - reflexivity.
  - apply clamp_0_100_range.
Qed.

(** C4. [fuse] returns as many values as the physics trajectory has; where
    the physics value is [<= 0] the fused value is exactly [0.0] whatever
    the neural value; elsewhere it is [0.35 * ml + 0.65 * ph] clamped to
    [0, 100], with [ml] the neural value at that index, or [ph] when the
    neural trajectory is too short; and every fused value lies in
    [0, 100]. *)
Theorem fuse_spec (phys_socs nn_socs : list float) :
  length (fuse phys_socs nn_socs) = length phys_socs /\
  forall idx, (idx < length phys_socs)%nat ->
    let ph := nth idx phys_socs 0 in
    let ml := if (idx <? length nn_socs)%nat then nth idx nn_socs 0 else ph in
    let out := nth idx (fuse phys_socs nn_socs) 0 in
    ((ph <=? 0) = true -> out = 0) /\
    ((ph <=? 0) = false -> out = clamp_0_100 (0.35 * ml + 0.65 * ph)) /\
    in_0_100 out = true.
Proof.
  split; [apply fuse_length|].
  intros idx Hidx ph ml out. subst out. rewrite fuse_nth by assumption.
  split; [|split].
  - intros Hph. unfold fuse_at. fold ph. now rewrite Hph.
  - intros Hph. unfold fuse_at. fold ph. rewrite Hph.
    change (1.0 - ML_WEIGHT) with 0.65. reflexivity.
  - apply fuse_at_range.
Qed.

(** The statement at a physics trajectory that ends in a discharge and a
    neural trajectory one value short. *)
Lemma fuse_spec_witness :
  length (fuse [80; 40; 0] [90; 50]) = 3%nat /\
  nth 0 (fuse [80; 40; 0] [90; 50]) 0 = clamp_0_100 (0.35 * 90 + 0.65 * 80) /\
  nth 2 (fuse [80; 40; 0] [90; 50]) 0 = 0 /\
  in_0_100 (nth 1 (fuse [80; 40; 0] [90; 50]) 0) = true.
Proof.
  destruct (fuse_spec [80; 40; 0] [90; 50]) as [Hlen Hidx].
  split; [exact Hlen|].
  split; [| split].
  - apply (proj1 (proj2 (Hidx 0%nat ltac:(simpl; lia)))). reflexivity.
  - apply (proj1 (Hidx 2%nat ltac:(simpl; lia))). reflexivity.
  - apply (proj2 (proj2 (Hidx 1%nat ltac:(simpl; lia)))).
Defined.

End Fusion.

(** ** The integrator loop *)

Section Indexing.

Context {A B : Type}.

Lemma bind_ret_l (a : A) (f : A -> Py B) : bind (ret a) f = f a.
Proof. unfold bind, ret. destruct (f a); reflexivity. Qed.

Lemma index_in_range (l : list A) (i : nat) (d : A) :
  (i < length l)%nat -> index l i = ret (nth i l d).
Proof.
  intros H. unfold index.
  now rewrite (nth_error_nth' l d H).
Qed.

Lemma index_last_nonempty (l : list A) (d : A) :
  (1 <= length l)%nat -> index_last l = ret (nth (length l - 1) l d).
Proof.
  intros H. unfold index_last.
  destruct l as [|x l] using rev_ind; [simpl in H; lia|].
  rewrite rev_unit, length_app, app_nth2 by (simpl; lia).
  simpl. replace (length l + 1 - 1 - length l)%nat with 0%nat by lia.
  reflexivity.
Qed.

End Indexing.

Section Range.

Lemma range_length (n : nat) : length (range n) = n.
Proof. unfold range. now rewrite length_map, length_seq. Qed.

Lemma range_nth (n i : nat) :
  (i < n)%nat -> nth i (range n) (PyInt 0) = PyInt (Z.of_nat i).
Proof.
  intros H. unfold range.
  change (PyInt 0) with ((fun i => PyInt (Z.of_nat i)) 0%nat).
  rewrite map_nth, seq_nth by assumption. reflexivity.
Qed.

Lemma range_unit_spaced (n : nat) : unit_spaced n (range n).
Proof.
  split; [apply range_length|].
  intros i Hi. split.
  - now rewrite range_nth.
  - intros H1. rewrite !range_nth by lia. simpl.
    replace (Z.of_nat i - Z.of_nat (i - 1))%Z with 1%Z by lia.
    reflexivity.
Qed.

Lemma effective_times_length (n : nat) (times : option (list pynum)) :
  length (effective_times n times) = n.
Proof.
  unfold effective_times. destruct times as [ts|]; [|apply range_length].
  destruct (length ts =? n)%nat eqn:E; [now apply Nat.eqb_eq|apply range_length].
Qed.

Lemma time_basis_outcome (n : nat) (times : option (list pynum)) :
  outcome (time_basis n times) = inr (effective_times n times).
Proof.
  unfold time_basis, effective_times. destruct times as [ts|]; [|reflexivity].
  destruct (length ts =? n)%nat; reflexivity.
Qed.

End Range.

Section CeilClamp.

Lemma ceil_clamp_range (x : float) : in_0_100 (ceil_clamp x) = true.
Proof. unfold ceil_clamp. apply clamp_0_100_range. Qed.

(** A value appended by a step that did not stop is not zero. *)
Lemma ceil_clamp_nonzero (x : float) :
  (x <=? 0) = false -> (ceil_clamp x =? 0) = false.
Proof.
  intros H. unfold ceil_clamp. destruct (100 <=? x); [reflexivity|].
  unfold clamp_0_100, py_min. destruct (x <? 100) eqn:E; [|reflexivity].
  unfold py_max. rewrite (not_leb_0_ltb _ _ H E).
  apply ltb_0_not_eqb. exact (not_leb_0_ltb _ _ H E).
Qed.

End CeilClamp.

Section Loop.

Variable currents : list float.
Variable ts : list pynum.
Variable n : nat.
Hypothesis currents_length : length currents = n.
Hypothesis ts_length : length ts = n.

(** One turn of the loop, with every index in range. *)
Lemma integrate_loop_step (i : nat) (rest : list nat) (phys : list float) :
  (1 <= i < n)%nat -> (1 <= length phys)%nat ->
  integrate_loop currents ts (i :: rest) phys =
  let next_soc :=
    step_next_soc (nth (i - 1) currents 0) (nth i ts (PyInt 0))
      (nth (i - 1) ts (PyInt 0)) (nth (length phys - 1) phys 0) in
  if next_soc <=? 0 then
    log (MsgDischarged (py_float (nth i ts (PyInt 0)))) RED ;;
    ret (phys ++ [0], py_float (nth i ts (PyInt 0)))
  else integrate_loop currents ts rest (phys ++ [ceil_clamp next_soc]).
Proof.
  intros Hi Hp. simpl.
  rewrite (index_in_range ts i (PyInt 0)) by lia.
  rewrite bind_ret_l.
  rewrite (index_in_range ts (i - 1) (PyInt 0)) by lia.
  rewrite bind_ret_l.
  rewrite (index_in_range currents (i - 1) 0) by lia.
  rewrite bind_ret_l.
  rewrite (index_last_nonempty phys 0) by assumption.
  rewrite bind_ret_l. reflexivity.
Qed.

Lemma integrate_loop_done (phys : list float) :
  (1 <= n)%nat ->
  integrate_loop currents ts [] phys =
  ret (phys, py_float (nth (n - 1) ts (PyInt 0))).
Proof.
  intros Hn. simpl.
  rewrite (index_last_nonempty ts (PyInt 0)) by lia.
  rewrite bind_ret_l, ts_length. reflexivity.
Qed.

(** The loop returns; what it returns extends [phys] by values of
    [0, 100], only the last of which can be zero; and it has either gone
    through every step or stopped at the first one whose [nextSoc] is
    [<= 0]. *)
Lemma integrate_loop_spec (k : nat) : forall (i : nat) (phys : list float),
  (1 <= i)%nat -> (i + k = n)%nat -> length phys = i ->
  exists suffix d,
    outcome (integrate_loop currents ts (seq i k) phys) = inr (phys ++ suffix, d) /\
    Forall (fun x => in_0_100 x = true) suffix /\
    (forall j, (j < length suffix)%nat -> (nth j suffix 0 =? 0) = true ->
               S j = length suffix) /\
    (((forall j, (i <= j < n)%nat ->
         (next_soc_at currents ts (phys ++ suffix) j <=? 0) = false) /\
      length (phys ++ suffix) = n /\
      d = py_float (nth (n - 1) ts (PyInt 0)))
     \/
     (exists j, (i <= j < n)%nat /\
        (forall j', (i <= j' < j)%nat ->
           (next_soc_at currents ts (phys ++ suffix) j' <=? 0) = false) /\
        (next_soc_at currents ts (phys ++ suffix) j <=? 0) = true /\
        length (phys ++ suffix) = S j /\
        d = py_float (nth j ts (PyInt 0)) /\
        nth j (phys ++ suffix) 0 = 0)).
Proof.
  induction k as [|k IH]; intros i phys Hi Hk Hlen.
  - exists [], (py_float (nth (n - 1) ts (PyInt 0))). simpl seq.
    rewrite integrate_loop_done by lia. rewrite app_nil_r.
    split; [reflexivity|]. split; [constructor|].
    split; [simpl; intros; lia|].
    left. split; [intros; lia|]. split; [lia|reflexivity].
  - simpl seq. rewrite integrate_loop_step by lia.
    set (nx := step_next_soc _ _ _ _).
    assert (Hnx : forall suffix,
      next_soc_at currents ts (phys ++ suffix) i = nx).
    { intros suffix. unfold next_soc_at, nx.
      rewrite app_nth1 by lia. now rewrite Hlen. }
    cbv zeta. destruct (nx <=? 0) eqn:Enx.
    + exists [0], (py_float (nth i ts (PyInt 0))).
      split; [reflexivity|]. split; [repeat constructor|].
      split; [simpl; intros j Hj _; lia|].
      right. exists i. split; [lia|]. split; [intros; lia|].
      split; [now rewrite Hnx|]. split; [rewrite length_app; simpl; lia|].
      split; [reflexivity|].
      rewrite app_nth2 by lia. now replace (i - length phys)%nat with 0%nat by lia.
    + destruct (IH (S i) (phys ++ [ceil_clamp nx])) as
        (suffix & d & Hout & Hrange & Hzero & Hcases);
        [lia | lia | rewrite length_app; simpl; lia |].
      rewrite <- app_assoc in Hout, Hcases. simpl app in Hout, Hcases.
      exists (ceil_clamp nx :: suffix), d.
      split; [exact Hout|].
      split; [constructor; [apply ceil_clamp_range|exact Hrange]|].
      split.
      { intros [|j] Hj Hz; simpl in *.
        - rewrite ceil_clamp_nonzero in Hz by assumption. discriminate.
        - f_equal. apply Hzero; [lia|assumption]. }
      destruct Hcases as [(Hno & Hl & Hd)|(j & Hj & Hno & Hyes & Hl & Hd & Hz)].
      * left. split; [|split; assumption].
        intros j Hj. destruct (Nat.eq_dec j i) as [->|Hne].
        -- now rewrite Hnx.
        -- apply Hno. lia.
      * right. exists j. split; [lia|]. split; [|repeat split; assumption].
        intros j' Hj'. destruct (Nat.eq_dec j' i) as [->|Hne].
        -- now rewrite Hnx.
        -- apply Hno. lia.
Qed.

End Loop.

Section LoopTimes.

Variable currents : list float.
Variables ts ts' : list pynum.
Variable n : nat.
Hypothesis currents_length : length currents = n.
Hypothesis ts_unit : unit_spaced n ts.
Hypothesis ts'_unit : unit_spaced n ts'.

(** Two unit-spaced time bases drive the loop to the same result. *)
Lemma integrate_loop_unit_spaced (steps : list nat) : forall phys,
  Forall (fun i => (1 <= i < n)%nat) steps -> (1 <= length phys)%nat ->
  integrate_loop currents ts steps phys = integrate_loop currents ts' steps phys.
Proof.
  destruct ts_unit as [Hl Hu], ts'_unit as [Hl' Hu'].
  induction steps as [|i rest IH]; intros phys Hsteps Hphys.
  - destruct (Nat.eq_dec n 0) as [E0|Hn].
    + assert (Ets : ts = []) by (apply length_zero_iff_nil; lia).
      assert (Ets' : ts' = []) by (apply length_zero_iff_nil; lia).
      now rewrite Ets, Ets'.
    + rewrite (integrate_loop_done currents ts n),
        (integrate_loop_done currents ts' n) by (assumption || lia).
      destruct (Hu (n - 1)%nat ltac:(lia)) as [Hm _].
      destruct (Hu' (n - 1)%nat ltac:(lia)) as [Hm' _].
      now rewrite Hm, Hm'.
  - pose proof (Forall_inv Hsteps) as Hi. pose proof (Forall_inv_tail Hsteps) as Hrest.
    cbv beta in Hi.
    rewrite (integrate_loop_step currents ts n),
      (integrate_loop_step currents ts' n) by assumption.
    unfold step_next_soc.
    destruct (Hu i ltac:(lia)) as [Hf Hd], (Hu' i ltac:(lia)) as [Hf' Hd'].
    rewrite Hd, Hd', Hf, Hf' by lia. cbv zeta.
    match goal with |- context [?x <=? 0] => destruct (x <=? 0) end.
    + reflexivity.
    + apply IH; [assumption|rewrite length_app; simpl; lia].
Qed.

End LoopTimes.

(** ** The integrator *)

Section Integrator.

Lemma physics_integrate_soc_outcome currents times start_soc :
  outcome (physics_integrate_soc currents times start_soc) =
  outcome (integrate_loop currents (effective_times (length currents) times)
             (seq 1 (length currents - 1)) [start_soc]).
Proof.
  unfold physics_integrate_soc.
  rewrite outcome_bind. simpl outcome at 1. cbv iota.
  now rewrite outcome_bind, time_basis_outcome.
Qed.

Lemma seq_bounds (m : nat) :
  Forall (fun i => (1 <= i < m)%nat) (seq 1 (m - 1)).
Proof.
  apply Forall_forall. intros i Hi. apply in_seq in Hi. lia.
Qed.




(** C2, as amended.  For a series of [N >= 1] samples the integrator
    returns; its trajectory starts with the start SOC; either no step has
    [nextSoc <= 0], the trajectory has [N] elements and the discharge time
    is the last timestamp, or [nextSoc <= 0] first occurs at a step [i],
    the trajectory has [i + 1] elements, ends in [0.0], and the discharge
    time is [times[i]]. *)
Theorem integrate_trajectory_shape currents times start_soc :
  let n := length currents in
  let ts := effective_times n times in
  (1 <= n)%nat ->
  exists traj d,
    outcome (physics_integrate_soc currents times start_soc) = inr (traj, d) /\
    nth_error traj 0 = Some start_soc /\
    (((forall i, (1 <= i < n)%nat ->
         (next_soc_at currents ts traj i <=? 0) = false) /\
      length traj = n /\
      d = py_float (nth (n - 1) ts (PyInt 0)))
     \/
     (exists i, (1 <= i < n)%nat /\
        (forall j, (1 <= j < i)%nat ->
           (next_soc_at currents ts traj j <=? 0) = false) /\
        (next_soc_at currents ts traj i <=? 0) = true /\
        length traj = S i /\
        d = py_float (nth i ts (PyInt 0)) /\
        nth i traj 0 = 0)).
Proof.
  intros n ts Hn. rewrite physics_integrate_soc_outcome.
  destruct (integrate_loop_spec currents ts n
              eq_refl (effective_times_length _ _)
              (n - 1) 1%nat [start_soc])
    as (suffix & d & Hout & _ & _ & Hcases); [lia|lia|reflexivity|].
  exists ([start_soc] ++ suffix), d.
  split; [exact Hout|]. split; [reflexivity|exact Hcases].
Qed.

(** The statement on the constant discharge, ten seconds a step. *)
Lemma integrate_trajectory_shape_witness :
  exists traj d,
    outcome (physics_integrate_soc discharge_currents
               (Some ten_second_times) 100) = inr (traj, d) /\
    nth_error traj 0 = Some 100 /\
    (((forall i, (1 <= i < 5)%nat ->
         (next_soc_at discharge_currents ten_second_times traj i <=? 0) = false) /\
      length traj = 5%nat /\
      d = py_float (nth 4 ten_second_times (PyInt 0)))
     \/
     (exists i, (1 <= i < 5)%nat /\
        (forall j, (1 <= j < i)%nat ->
           (next_soc_at discharge_currents ten_second_times traj j <=? 0) = false) /\
        (next_soc_at discharge_currents ten_second_times traj i <=? 0) = true /\
        length traj = S i /\
        d = py_float (nth i ten_second_times (PyInt 0)) /\
        nth i traj 0 = 0)).
Proof.
  apply (integrate_trajectory_shape discharge_currents
           (Some ten_second_times) 100).
  simpl. lia.
Defined.

(** C2 fails as stated for [N = 0]: on an empty series the integrator
    raises [IndexError] at [times[-1]] and returns no trajectory. *)
Lemma integrate_raises_on_empty_series :
  ~ (forall currents times start_soc,
       exists traj d,
         outcome (physics_integrate_soc currents times start_soc) = inr (traj, d) /\
         nth_error traj 0 = Some start_soc).
Proof.
  intros H. destruct (H [] None 100) as (traj & d & Hout & _).
  discriminate Hout.
Qed.

(** C8.  Called without timestamps, or with a timestamp list of another
    length than the series, the integrator returns the trajectory and the
    discharge time it returns for the explicit list [0, 1, ..., N-1]. *)
Theorem integrate_unit_step_fallback currents times ts start_soc :
  times = None \/ (exists l, times = Some l /\ length l <> length currents) ->
  unit_spaced (length currents) ts ->
  outcome (physics_integrate_soc currents times start_soc) =
  outcome (physics_integrate_soc currents (Some ts) start_soc).
Proof.
  intros Htimes Hts. rewrite !physics_integrate_soc_outcome.
  assert (E1 : effective_times (length currents) times = range (length currents)).
  { destruct Htimes as [->|(l & -> & Hl)]; [reflexivity|].
    simpl. apply Nat.eqb_neq in Hl. now rewrite Hl. }
  assert (E2 : effective_times (length currents) (Some ts) = ts).
  { simpl. destruct Hts as [Hl _]. now rewrite Hl, Nat.eqb_refl. }
  rewrite E1, E2. f_equal.
  apply (integrate_loop_unit_spaced currents _ _ (length currents) eq_refl
           (range_unit_spaced _) Hts).
  - apply seq_bounds.
  - simpl. lia.
Qed.

(** The statement on a request whose single timestamp does not match five
    samples, against the explicit float list. *)
Lemma integrate_unit_step_fallback_witness :
  outcome (physics_integrate_soc [-38880; -38880; -38880; -38880; -38880]
             (Some [PyFlt 7.5]) 100) =
  outcome (physics_integrate_soc [-38880; -38880; -38880; -38880; -38880]
             (Some (map PyFlt [0; 1; 2; 3; 4])) 100).
Proof.
  apply integrate_unit_step_fallback.
  - right. exists [PyFlt 7.5]. split; [reflexivity|simpl; lia].
  - split; [reflexivity|].
    intros i Hi. simpl in Hi.
    do 5 (destruct i as [|i];
          [split; [reflexivity|intros H1; first [reflexivity|lia]]|]).
    lia.
Defined.

End Integrator.

(** ** Shapes through the network *)

Section Shapes.

Lemma zip_with_length {A B C} (f : A -> B -> C) (l : list A) (l' : list B) :
  length l = length l' -> length (Np.zip_with f l l') = length l.
Proof.
  revert l'. induction l as [|a l IH]; intros [|b l'] H; simpl in *;
    try discriminate; [reflexivity|].
  f_equal. apply IH. lia.
Qed.

Lemma has_shape_rows (r n : nat) (f : float -> float -> float)
    (M : Np.matrix) (col : list float) :
  has_shape r n M -> length col = r ->
  has_shape r n (Np.zip_with (fun row x => map (fun a => f a x) row) M col).
Proof.
  intros [Hr Hn] Hc. split.
  - rewrite zip_with_length; lia.
  - clear Hr Hc. revert col.
    induction Hn as [|row M Hrow HM IH]; intros [|x col]; simpl;
      constructor; [now rewrite length_map|apply IH].
Qed.

Lemma has_shape_map (r n : nat) (f : float -> float) (M : Np.matrix) :
  has_shape r n M -> has_shape r n (map (map f) M).
Proof.
  intros [Hr Hn]. split; [now rewrite length_map|].
  apply Forall_map. eapply Forall_impl; [|exact Hn].
  intros row Hrow. now rewrite length_map.
Qed.

Lemma broadcast_rows (f : float -> float -> float) (M : Np.matrix)
    (col : list float) :
  length M = length col ->
  Np.broadcast f M col =
  ret (Np.zip_with (fun row x => map (fun a => f a x) row) M col).
Proof.
  intros H. unfold Np.broadcast. now rewrite H, Nat.eqb_refl.
Qed.

Lemma broadcast_col_rows {A : Type} (f : A -> A -> A) (u v : list A) :
  length u = length v ->
  Np.broadcast_col f u v = ret (Np.zip_with f u v).
Proof.
  intros H. unfold Np.broadcast_col. now rewrite H, Nat.eqb_refl.
Qed.

Lemma shape2_rows (A : Np.matrix) (h k : nat) :
  Np.shape2 A = Some (h, k) -> length A = h.
Proof.
  unfold Np.shape2. destruct A as [|row rest]; [discriminate|].
  destruct (forallb _ rest); [|discriminate].
  now intros [= <- _].
Qed.

Lemma dot_shape `{blas : Np.Blas} (A B : Np.matrix) (h k n : nat) :
  Np.shape2 A = Some (h, k) -> length B = k ->
  exists M, Np.dot A B n = ret M /\ has_shape h n M.
Proof.
  intros HA HB. unfold Np.dot. rewrite HA, HB, Nat.eqb_refl.
  eexists. split; [reflexivity|]. split.
  - now rewrite length_map, length_seq.
  - apply Forall_map, Forall_forall. intros i _.
    now rewrite length_map, length_seq.
Qed.

Lemma valid_shapes_inv (P : ModelParams) :
  valid_shapes P = true ->
  exists h,
    Np.shape2 (IW P) = Some (h, 3%nat) /\ Np.shape2 (LW P) = Some (1%nat, h) /\
    length (b1 P) = h /\ length (b2 P) = 1%nat /\
    length (x_min P) = 3%nat /\ length (x_max P) = 3%nat.
Proof.
  unfold valid_shapes.
  destruct (Np.shape2 (IW P)) as [[h [|[|[|[|c]]]]]|]; try discriminate.
  destruct (Np.shape2 (LW P)) as [[[|[|r]] h']|]; try discriminate.
  rewrite !andb_true_iff, !Nat.eqb_eq.
  intros [[[[-> H1] H2] H3] H4]. exists h. auto 10.
Qed.

Lemma flatten_one_row (n : nat) (M : Np.matrix) :
  has_shape 1 n M -> length (Np.flatten M) = n.
Proof.
  intros [Hr Hn]. destruct M as [|row [|row' M]]; try discriminate.
  unfold Np.flatten. simpl. rewrite app_nil_r. now inversion Hn.
Qed.

End Shapes.

Section NeuralNetFacts.

Variable tanh : float -> float.
Context `{blas : Np.Blas}.
Variable P : ModelParams.

(** Between bounds of which one at least is [float64], the difference is
    taken in [float64] and a zero is replaced by [EPS]. *)
Lemma denom_float64 :
  (exists l, x_max P = Np.Float64 l) \/ (exists l, x_min P = Np.Float64 l) ->
  length (x_min P) = length (x_max P) ->
  denom P =
  ret (map (fun x => if x =? 0 then EPS else x)
         (Np.zip_with sub (x_max P) (x_min P))).
Proof.
  intros Hty Hlen. unfold denom.
  destruct (x_max P) as [hi|hi], (x_min P) as [lo|lo];
    try (exfalso; destruct Hty as [[l H]|[l H]]; discriminate H);
    rewrite broadcast_col_rows by (symmetry; exact Hlen);
    now rewrite bind_ret_l.
Qed.

(** Between two [int64] arrays the difference is taken in [int64], and
    what is stored in place of a zero is [EPS] converted to [int64]. *)
Lemma denom_int64 (hi lo : list Z) :
  x_max P = Np.Int64 hi -> x_min P = Np.Int64 lo -> length hi = length lo ->
  denom P =
  ret (map (fun z => float_of_Z
                       (if (z =? 0)%Z then Np.int64_of_float EPS else z))
         (Np.zip_with (fun a b => Np.int64_wrap (a - b)) hi lo)).
Proof.
  intros Emax Emin Hlen. unfold denom. rewrite Emax, Emin.
  rewrite broadcast_col_rows by exact Hlen. now rewrite bind_ret_l.
Qed.

Lemma denom_length :
  length (x_min P) = 3%nat -> length (x_max P) = 3%nat ->
  exists dn, denom P = ret dn /\ length dn = 3%nat.
Proof.
  intros Hmin Hmax. unfold denom.
  destruct (x_max P) as [hi|hi], (x_min P) as [lo|lo];
    simpl in Hmin, Hmax; rewrite ?length_map in *;
    rewrite broadcast_col_rows by (simpl; rewrite ?length_map; lia);
    rewrite bind_ret_l; eexists; (split; [reflexivity|]);
    rewrite length_map, zip_with_length; simpl; rewrite ?length_map; lia.
Qed.

(** With three bounds on each side, every entry of the stacked input goes
    through [saturate] with the bounds of its row. *)
Lemma clamp_inputs_valid (c t v : list float) :
  length (x_min P) = 3%nat -> length (x_max P) = 3%nat ->
  exists X_clamped,
    clamp_inputs P [c; t; v] = ret X_clamped /\
    forall k j, (k < 3)%nat -> (j < length (nth k [c; t; v] []))%nat ->
      nth j (nth k X_clamped []) 0 =
      saturate (nth k (x_min P) 0) (nth k (x_max P) 0)
        (nth j (nth k [c; t; v] []) 0).
Proof.
  intros Hmin Hmax. unfold clamp_inputs.
  destruct (Np.to_float64 (x_min P)) as [|lo0 [|lo1 [|lo2 [|? ?]]]]; try discriminate.
  destruct (Np.to_float64 (x_max P)) as [|hi0 [|hi1 [|hi2 [|? ?]]]]; try discriminate.
  rewrite broadcast_rows by reflexivity. rewrite bind_ret_l.
  rewrite broadcast_rows by reflexivity.
  eexists. split; [reflexivity|].
  intros k j Hk Hj. simpl Np.zip_with.
  assert (G : forall lo hi (l : list float), (j < length l)%nat ->
    nth j (map (fun a => Np.maximum lo a)
             (map (fun a => Np.minimum hi a) l)) 0 =
    saturate lo hi (nth j l 0)).
  { intros lo hi l Hl. rewrite map_map.
    rewrite (nth_indep _ 0 (saturate lo hi 0)) by now rewrite length_map.
    now rewrite (map_nth (fun a => saturate lo hi a)). }
  destruct k as [|[|[|k]]]; [apply G, Hj|apply G, Hj|apply G, Hj|lia].
Qed.

(** On a bundle of valid shapes and three channels of one length, no numpy
    operation raises and [Y_norm] has one row of [n] entries. *)
Lemma forward_valid (currents temps voltages : list float) :
  valid_shapes P = true ->
  length temps = length currents -> length voltages = length currents ->
  exists Y, forward tanh P currents temps voltages = ret Y /\
            has_shape 1 (length currents) Y.
Proof.
  intros HP Ht Hv.
  destruct (valid_shapes_inv P HP) as (h & HIW & HLW & Hb1 & Hb2 & Hmin & Hmax).
  unfold forward, clamp_inputs. unfold Np.vstack3.
  rewrite length_map, Ht, Hv, Nat.eqb_refl. simpl andb. cbv iota.
  rewrite bind_ret_l.
  set (n := length currents).
  set (X := [currents; temps; map (fun v => v / SERIES_CELLS) voltages]).
  assert (HX : has_shape 3 n X).
  { split; [reflexivity|]. repeat constructor; [assumption|].
    now rewrite length_map. }
  rewrite broadcast_rows by (destruct HX; lia). rewrite bind_ret_l.
  pose proof (has_shape_rows 3 n (fun x hi => Np.minimum hi x) X (x_max P) HX Hmax)
    as H1.
  set (X_lo := Np.zip_with _ X (x_max P)) in *.
  rewrite broadcast_rows by (destruct H1; lia). rewrite bind_ret_l.
  pose proof (has_shape_rows 3 n (fun x lo => Np.maximum lo x) X_lo (x_min P) H1 Hmin)
    as H2.
  set (X_clamped := Np.zip_with _ X_lo (x_min P)) in *.
  destruct (denom_length Hmin Hmax) as (dn & -> & Hdn). rewrite bind_ret_l.
  rewrite broadcast_rows by (destruct H2; lia). rewrite bind_ret_l.
  pose proof (has_shape_rows 3 n sub X_clamped (x_min P) H2 Hmin) as H3.
  set (X_shift := Np.zip_with _ X_clamped (x_min P)) in *.
  pose proof (has_shape_map 3 n (fun a => 2.0 * a) X_shift H3) as H4.
  rewrite broadcast_rows by (destruct H4; lia). rewrite bind_ret_l.
  pose proof (has_shape_rows 3 n div _ dn H4 Hdn) as H5.
  set (X_quot := Np.zip_with _ _ dn) in *.
  pose proof (has_shape_map 3 n (fun a => a - 1.0) X_quot H5) as H6.
  destruct (dot_shape (IW P) (map (map (fun a => a - 1.0)) X_quot) h 3 n HIW
              (proj1 H6)) as (A1 & -> & HA1).
  rewrite bind_ret_l.
  rewrite broadcast_rows by (destruct HA1; lia). rewrite bind_ret_l.
  pose proof (has_shape_rows h n add A1 (b1 P) HA1 Hb1) as H7.
  set (A1b := Np.zip_with _ A1 (b1 P)) in *.
  pose proof (has_shape_map h n tanh A1b H7) as H8.
  destruct (dot_shape (LW P) (map (map tanh) A1b) 1 h n HLW (proj1 H8))
    as (A2 & -> & HA2).
  rewrite bind_ret_l.
  rewrite broadcast_rows by (destruct HA2; lia).
  eexists. split; [reflexivity|].
  apply has_shape_rows; assumption.
Qed.

Lemma soc_percent_spec (y : float) :
  soc_percent P y =
  scale_policy_spec (y_max P) (denormalize_spec (y_min P) (y_max P) y).
Proof.
  unfold soc_percent, soc_fraction, scale_policy_spec, denormalize_spec.
  rewrite sub_neg_one. reflexivity.
Qed.

Lemma run_neural_net_batch_outcome (currents temps voltages : list float) :
  outcome (run_neural_net_batch tanh P currents temps voltages) =
  match outcome (forward tanh P currents temps voltages) with
  | inl e => inl e
  | inr Y_norm =>
      inr (map clamp_0_100 (Np.flatten (map (map (soc_percent P)) Y_norm)))
  end.
Proof.
  unfold run_neural_net_batch.
  rewrite outcome_bind. simpl outcome at 1. cbv iota.
  rewrite outcome_bind.
  destruct (outcome (forward tanh P currents temps voltages)); reflexivity.
Qed.

Lemma run_neural_net_batch_trace_valid (currents temps voltages : list float)
    (Y : Np.matrix) :
  forward tanh P currents temps voltages = ret Y ->
  run_neural_net_batch tanh P currents temps voltages =
  (let result := map clamp_0_100 (Np.flatten (map (map (soc_percent P)) Y)) in
   ([(BLUE, MsgRunningNN (length currents));
     (YELLOW, MsgNNOutput (firstn 5 result))], inr result)).
Proof.
  intros H. unfold run_neural_net_batch. rewrite H. reflexivity.
Qed.

Lemma run_neural_net_batch_valid (currents temps voltages : list float) :
  valid_shapes P = true ->
  length temps = length currents -> length voltages = length currents ->
  exists r,
    run_neural_net_batch tanh P currents temps voltages =
      ([(BLUE, MsgRunningNN (length currents));
        (YELLOW, MsgNNOutput (firstn 5 r))], inr r) /\
    length r = length currents /\
    Forall (fun x => in_0_100 x = true) r.
Proof.
  intros HP Ht Hv.
  destruct (forward_valid currents temps voltages HP Ht Hv)
    as (Y & HY & Hshape).
  rewrite (run_neural_net_batch_trace_valid _ _ _ Y HY). cbv zeta.
  eexists. split; [reflexivity|]. split.
  - rewrite length_map. apply flatten_one_row. now apply has_shape_map.
  - apply Forall_map, Forall_forall. intros x _. apply clamp_0_100_range.
Qed.

End NeuralNetFacts.

(** ** The predictor *)

Section Predictor.

Variable tanh : float -> float.
Context `{blas : Np.Blas}.

(** C3.  On a bundle of valid shapes and three channels of one length [N],
    the predictor returns [N] values, each in [0, 100], whatever the
    inputs.  No input is rejected for being out of range: every entry of
    the stacked input is saturated, and lies between the bounds of its
    channel when these are ordered and the entry is not a NaN. *)
Theorem predict_length_and_range (P : ModelParams)
    (currents temps voltages : list float) :
  valid_shapes P = true ->
  length temps = length currents -> length voltages = length currents ->
  (exists r,
     outcome (run_neural_net_batch tanh P currents temps voltages) = inr r /\
     length r = length currents /\
     Forall (fun x => in_0_100 x = true) r) /\
  (let X := [currents; temps; map (fun v => v / SERIES_CELLS) voltages] in
   exists X_clamped,
     clamp_inputs P X = ret X_clamped /\
     forall k j, (k < 3)%nat -> (j < length currents)%nat ->
       let lo := nth k (x_min P) 0 in
       let hi := nth k (x_max P) 0 in
       let x := nth j (nth k X []) 0 in
       nth j (nth k X_clamped []) 0 = saturate lo hi x /\
       ((lo <=? hi) = true -> is_nan x = false ->
        (lo <=? saturate lo hi x) = true /\ (saturate lo hi x <=? hi) = true)).
Proof.
  intros HP Ht Hv. split.
  - destruct (run_neural_net_batch_valid tanh P currents temps voltages HP Ht Hv)
      as (r & Hr & Hlen & Hrange).
    exists r. rewrite Hr. auto.
  - destruct (valid_shapes_inv P HP) as (h & _ & _ & _ & _ & Hmin & Hmax).
    intros X.
    destruct (clamp_inputs_valid P currents temps
                (map (fun v => v / SERIES_CELLS) voltages) Hmin Hmax)
      as (X_clamped & HX & Hentry).
    exists X_clamped. split; [exact HX|].
    intros k j Hk Hj lo hi x. split.
    + apply Hentry; [exact Hk|].
      destruct k as [|[|[|k]]]; simpl; rewrite ?length_map; lia.
    + apply saturate_range.
Qed.

(** C5.  Each raw output [yNorm] is denormalized as
    [(yNorm + 1) * (outputMax - outputMin) / 2 + outputMin], multiplied by
    100 exactly when [outputMax < 2.0], and then clamped to [0, 100]. *)
Theorem predict_denormalize_scale_clamp (P : ModelParams)
    (currents temps voltages : list float) :
  outcome (run_neural_net_batch tanh P currents temps voltages) =
  match outcome (forward tanh P currents temps voltages) with
  | inl e => inl e
  | inr Y_norm =>
      inr (map (fun yNorm =>
                  clamp_0_100
                    (scale_policy_spec (y_max P)
                       (denormalize_spec (y_min P) (y_max P) yNorm)))
             (Np.flatten Y_norm))
  end.
Proof.
  rewrite run_neural_net_batch_outcome.
  destruct (outcome (forward tanh P currents temps voltages)) as [e|Y];
    [reflexivity|].
  f_equal. unfold Np.flatten. rewrite <- concat_map, map_map.
  apply map_ext. intros y. now rewrite soc_percent_spec.
Qed.

End Predictor.

(** The statement of C3 on three samples, two of them far outside the
    normalization bounds. *)
Lemma predict_length_and_range_witness :
  (exists r,
     outcome (run_neural_net_batch tanh_ref (blas := blas_ref) sample_bundle
                [0; 1000; -1000] [25; -300; 1e6] [345.6; 0; 1e9]) = inr r /\
     length r = 3%nat /\
     Forall (fun x => in_0_100 x = true) r) /\
  (exists X_clamped,
     clamp_inputs sample_bundle
       [[0; 1000; -1000]; [25; -300; 1e6];
        map (fun v => v / SERIES_CELLS) [345.6; 0; 1e9]] = ret X_clamped /\
     nth 1 (nth 0 X_clamped []) 0 = 10 /\
     nth 2 (nth 1 X_clamped []) 0 = 50).
Proof.
  destruct (predict_length_and_range tanh_ref (blas := blas_ref) sample_bundle
              [0; 1000; -1000] [25; -300; 1e6] [345.6; 0; 1e9]
              eq_refl eq_refl eq_refl) as [Hr (X_clamped & HX & Hentry)].
  split; [exact Hr|].
  exists X_clamped. split; [exact HX|]. split.
  - apply (proj1 (Hentry 0%nat 1%nat ltac:(lia) ltac:(simpl; lia))).
  - apply (proj1 (Hentry 1%nat 2%nat ltac:(lia) ltac:(simpl; lia))).
Defined.


(** ** The guard of the normalization *)

(** C9.  The guard of line 77 is lost on bounds written as integers.  On
    [integer_bounds_bundle], whose voltage bounds are both 3, the
    difference of the two [int64] arrays is [[20; 50; 0]], [EPS] is stored
    into it as the integer 0 and the zero stays; line 78 then divides
    zero by zero in the voltage row, whatever [np.tanh] and [np.dot]
    compute; with the reference ones the network returns a NaN and the
    prediction is its clamp, 100.  The same bounds written as floats give
    the denominators [[20; 50; 1e-9]]. *)
Theorem integer_bounds_defeat_the_guard :
  Np.int64_of_float EPS = 0%Z /\
  denom integer_bounds_bundle = ret [20; 50; 0] /\
  denom sample_bundle = ret [20; 50; EPS] /\
  (X_clamped <- clamp_inputs integer_bounds_bundle
                  [[0]; [25]; [345.6 / SERIES_CELLS]] ;;
   denom <- denom integer_bounds_bundle ;;
   X_shift <- Np.broadcast sub X_clamped (x_min integer_bounds_bundle) ;;
   Np.broadcast div (map (map (fun a => 2.0 * a)) X_shift) denom)
  = ret [[1]; [1]; [nan]] /\
  outcome (forward tanh_ref (blas := blas_ref) integer_bounds_bundle
             [0] [25] [345.6]) = inr [[nan]] /\
  outcome (run_neural_net_batch tanh_ref (blas := blas_ref)
             integer_bounds_bundle [0] [25] [345.6]) = inr [100] /\
  outcome (run_neural_net_batch tanh_ref (blas := blas_ref)
             sample_bundle [0] [25] [345.6]) = inr [37.773279352226716].
Proof. repeat split; reflexivity. Qed.

Section Guard.

Variable P : ModelParams.

(** X14.  With three bounds on each side, of which one array at least is
    [float64], no denominator of the normalization is zero, and the
    denominator of a channel whose finite bounds coincide is [1e-9]. *)
Theorem float64_bounds_guard :
  (exists l, x_max P = Np.Float64 l) \/ (exists l, x_min P = Np.Float64 l) ->
  length (x_min P) = 3%nat -> length (x_max P) = 3%nat ->
  exists d, denom P = ret d /\ length d = 3%nat /\
    forall i, (i < 3)%nat ->
      (nth i d 0 =? 0) = false /\
      (is_finite (nth i (x_max P) 0) = true ->
       (nth i (x_max P) 0 =? nth i (x_min P) 0) = true ->
       nth i d 0 = EPS).
Proof.
  intros Hty Hmin Hmax.
  rewrite (denom_float64 P Hty) by lia. eexists. split; [reflexivity|].
  destruct (Np.to_float64 (x_min P)) as [|lo0 [|lo1 [|lo2 [|? ?]]]];
    try discriminate.
  destruct (Np.to_float64 (x_max P)) as [|hi0 [|hi1 [|hi2 [|? ?]]]];
    try discriminate.
  split; [reflexivity|].
  intros i Hi.
  assert (G : forall hi lo,
    ((if hi - lo =? 0 then EPS else hi - lo) =? 0) = false /\
    (is_finite hi = true -> (hi =? lo) = true ->
     (if hi - lo =? 0 then EPS else hi - lo) = EPS)).
  { intros hi lo. split.
    - destruct (hi - lo =? 0) eqn:E; [reflexivity|exact E].
    - intros Hf He. now rewrite (sub_eq_zero hi lo Hf He). }
  destruct i as [|[|[|i]]]; [apply G|apply G|apply G|lia].
Qed.

(** X15.  With three bounds on each side, both arrays [int64], the
    substitution of line 77 stores nothing but zero: the denominator of a
    channel whose bounds coincide is zero. *)
Theorem int64_bounds_keep_zero_denominator (hi lo : list Z) :
  x_max P = Np.Int64 hi -> x_min P = Np.Int64 lo ->
  length hi = 3%nat -> length lo = 3%nat ->
  exists d, denom P = ret d /\ length d = 3%nat /\
    forall i, (i < 3)%nat -> nth i hi 0%Z = nth i lo 0%Z ->
      nth_error d i = Some 0.
Proof.
  intros Emax Emin Hhi Hlo.
  rewrite (denom_int64 P hi lo Emax Emin) by lia.
  eexists. split; [reflexivity|].
  destruct hi as [|h0 [|h1 [|h2 [|? ?]]]]; try discriminate.
  destruct lo as [|l0 [|l1 [|l2 [|? ?]]]]; try discriminate.
  split; [reflexivity|].
  intros i Hi E.
  destruct i as [|[|[|i]]]; [| | |lia]; cbn [nth] in E; subst;
    cbn [Np.zip_with map nth_error]; rewrite Z.sub_diag; reflexivity.
Qed.

End Guard.

(** The statement of X14 on the bundle whose voltage bounds coincide. *)
Lemma float64_bounds_guard_witness :
  exists d, denom sample_bundle = ret d /\ length d = 3%nat /\
    forall i, (i < 3)%nat ->
      (nth i d 0 =? 0) = false /\
      (is_finite (nth i (x_max sample_bundle) 0) = true ->
       (nth i (x_max sample_bundle) 0 =? nth i (x_min sample_bundle) 0) = true ->
       nth i d 0 = EPS).
Proof.
  apply (float64_bounds_guard sample_bundle).
  - left. eexists. reflexivity.
  - reflexivity.
  - reflexivity.
Defined.

(** The statement of X15 on the bundle with integer bounds. *)
Lemma int64_bounds_keep_zero_denominator_witness :
  exists d, denom integer_bounds_bundle = ret d /\ length d = 3%nat /\
    forall i, (i < 3)%nat ->
      nth i [10; 50; 3]%Z 0%Z = nth i [-10; 0; 3]%Z 0%Z ->
      nth_error d i = Some 0.
Proof.
  apply (int64_bounds_keep_zero_denominator integer_bounds_bundle
           [10; 50; 3]%Z [-10; 0; 3]%Z); reflexivity.
Defined.

(** ** The endpoints *)

Section LoopTrace.

Variable currents : list float.
Variable ts : list pynum.


End LoopTrace.


Section EndpointFacts.

Variable tanh : float -> float.
Context `{blas : Np.Blas}.
Variable P : ModelParams.

Lemma run_neural_net_batch_entry (currents temps voltages : list float) :
  hd_error (trace (run_neural_net_batch tanh P currents temps voltages)) =
  Some (BLUE, MsgRunningNN (length currents)).
Proof. unfold run_neural_net_batch. now rewrite trace_bind. Qed.

Lemma physics_integrate_soc_entry currents times start_soc :
  hd_error (trace (physics_integrate_soc currents times start_soc)) =
  Some (BLUE, MsgPhysicsStart start_soc).
Proof. unfold physics_integrate_soc. now rewrite trace_bind. Qed.

(** C7.  When the temperature or the voltage array has another length
    than the current array, the trajectory operation answers the empty
    result and prints the request line and the mismatch line only: neither
    the predictor nor the integrator, which each print a line on entry,
    has run. *)
Theorem cycle_length_mismatch (data : DriveCycleData) :
  length (temperature data) <> length (current data) \/
  length (voltage data) <> length (current data) ->
  predict_cycle tanh P data =
    ([(BLUE, MsgBatchRequest (length (current data)));
      (RED, MsgLengthMismatch)],
     inr {| soc := []; discharge_time := None; total_points := 0 |}) /\
  (forall c t v,
     hd_error (trace (run_neural_net_batch tanh P c t v)) =
     Some (BLUE, MsgRunningNN (length c))) /\
  (forall c ts s,
     hd_error (trace (physics_integrate_soc c ts s)) =
     Some (BLUE, MsgPhysicsStart s)).
Proof.
  intros H. split; [|split].
  - unfold predict_cycle.
    assert (E : ((length (temperature data) =? length (current data))%nat
                 && (length (voltage data) =? length (current data))%nat)
                = false).
    { apply andb_false_iff. rewrite !Nat.eqb_neq. exact H. }
    rewrite E. reflexivity.
  - intros. apply run_neural_net_batch_entry.
  - intros. apply physics_integrate_soc_entry.
Qed.


(** C6, as amended.  The single-point operation never raises.  It answers
    a null SOC exactly when the predictor raised or returned nothing;
    otherwise it answers the clamped first prediction, a finite number of
    [0, 100].  A raw output that is not finite raises nothing: the clamp
    sends NaN and [+inf] to 100 and [-inf] to 0. *)
Theorem predict_single_result (data : InputData) :
  match outcome (run_neural_net_batch tanh P
                   [in_current data] [in_temperature data] [in_voltage data])
  with
  | inr (first :: _) =>
      outcome (predict_single tanh P data) =
        inr {| soc_value := Some (clamp_0_100 first) |} /\
      in_0_100 (clamp_0_100 first) = true /\
      is_finite (clamp_0_100 first) = true
  | _ =>
      outcome (predict_single tanh P data) = inr {| soc_value := None |}
  end /\
  clamp_0_100 nan = 100 /\ clamp_0_100 infinity = 100 /\
  clamp_0_100 neg_infinity = 0.
Proof.
  split; [|repeat split; reflexivity].
  unfold predict_single.
  rewrite outcome_bind. simpl outcome at 1. cbv iota.
  rewrite outcome_try_except, outcome_bind.
  destruct (outcome (run_neural_net_batch tanh P _ _ _)) as [e|[|first rest]].
  - reflexivity.
  - reflexivity.
  - split; [reflexivity|].
    split; [apply clamp_0_100_range|].
    apply in_0_100_finite, clamp_0_100_range.
Qed.

End EndpointFacts.

(** The statement of C7 on five currents against four voltages. *)
Lemma cycle_length_mismatch_witness :
  predict_cycle tanh_ref (blas := blas_ref) sample_bundle mismatched_cycle =
    ([(BLUE, MsgBatchRequest 5); (RED, MsgLengthMismatch)],
     inr {| soc := []; discharge_time := None; total_points := 0 |}).
Proof.
  apply (cycle_length_mismatch tanh_ref (blas := blas_ref) sample_bundle mismatched_cycle).
  right. simpl. lia.
Defined.


(** C6 fails as stated: on [overflow_bundle] the raw output of the
    network for [sample_point] is [+inf], and the operation answers the
    number 100, not a null SOC. *)
Lemma non_finite_result_is_answered_with_a_number :
  outcome (forward tanh_ref (blas := blas_ref) overflow_bundle [0] [25] [345.6]) = inr [[0]] /\
  soc_percent overflow_bundle 0 = infinity /\
  is_finite (soc_percent overflow_bundle 0) = false /\
  outcome (predict_single tanh_ref (blas := blas_ref) overflow_bundle sample_point) =
    inr {| soc_value := Some 100 |}.
Proof. repeat split; reflexivity. Qed.

(** ** The scenarios of the specification, run on the model *)

Section Scenarios.

(** Scenario B: one sample gives one value, here inside [0, 100]. *)
Example scenario_single_point :
  exists v,
    outcome (predict_single tanh_ref (blas := blas_ref) sample_bundle sample_point) =
      inr {| soc_value := Some v |} /\
    in_0_100 v = true.
Proof. eexists. split; reflexivity. Qed.

(** Scenario C: the constant discharge crosses zero at step 3; four
    elements come back, the last one zero, with the timestamp of step 3. *)
Example scenario_discharge_at_step_3 :
  outcome (physics_integrate_soc discharge_currents (Some ten_second_times) 100)
  = inr ([100; 60; 20; 0], 30).
Proof. reflexivity. Qed.

(** Scenario D: five currents, four voltages. *)
Example scenario_length_mismatch :
  outcome (predict_cycle tanh_ref (blas := blas_ref) sample_bundle mismatched_cycle) =
  inr {| soc := []; discharge_time := None; total_points := 0 |}.
Proof. reflexivity. Qed.

(** Scenario E: no timestamps against the explicit floats 0.0 to 4.0. *)
Example scenario_unit_step_fallback :
  outcome (physics_integrate_soc discharge_currents None 100) =
  outcome (physics_integrate_soc discharge_currents
             (Some (map PyFlt [0; 1; 2; 3; 4])) 100).
Proof. reflexivity. Qed.

(** A start SOC outside [0, 100] is recorded as it comes. *)
Example out_of_range_start_is_kept :
  outcome (physics_integrate_soc [0] None 150) = inr ([150], 0).
Proof. reflexivity. Qed.

(** An empty request reaches the integrator, whose [IndexError] the
    endpoint turns into the empty result. *)
Example empty_cycle_is_answered_empty :
  predict_cycle tanh_ref (blas := blas_ref) sample_bundle
    {| current := []; voltage := []; temperature := []; time := None |} =
  ([(BLUE, MsgBatchRequest 0); (BLUE, MsgRunningNN 0);
    (YELLOW, MsgNNOutput []); (BLUE, MsgPhysicsStart 100);
    (YELLOW, MsgNoValidTime); (RED, MsgErrorSimulate IndexError)],
   inr empty_response).
Proof. reflexivity. Qed.

End Scenarios.

(** * Further properties of the integrator *)

Section IntegratorEdges.

(** X1.  On an empty series the integrator raises [IndexError], whatever
    the timestamps and the start SOC: the time basis is empty and line 154
    reads [times[-1]]. *)
Theorem integrate_empty_series_raises (times : option (list pynum))
    (start_soc : float) :
  outcome (physics_integrate_soc [] times start_soc) = inl IndexError.
Proof.
  rewrite physics_integrate_soc_outcome. simpl length.
  assert (E : effective_times 0 times = []).
  { apply length_zero_iff_nil, effective_times_length. }
  rewrite E. reflexivity.
Qed.

(** The loop never reads a current past the indices it is given. *)
Lemma integrate_loop_last_current (cs : list float) (c c' : float)
    (ts : list pynum) (steps : list nat) : forall phys,
  Forall (fun i => (1 <= i <= length cs)%nat) steps ->
  integrate_loop (cs ++ [c]) ts steps phys =
  integrate_loop (cs ++ [c']) ts steps phys.
Proof.
  induction steps as [|i rest IH]; intros phys Hsteps; [reflexivity|].
  pose proof (Forall_inv Hsteps) as Hi. cbv beta in Hi.
  pose proof (Forall_inv_tail Hsteps) as Hrest.
  simpl. unfold index.
  destruct (nth_error ts i); [rewrite !bind_ret_l|reflexivity].
  destruct (nth_error ts (i - 1)); [rewrite !bind_ret_l|reflexivity].
  rewrite !nth_error_app1 by lia.
  destruct (nth_error cs (i - 1)); [rewrite !bind_ret_l|reflexivity].
  unfold index_last.
  destruct (rev phys); [reflexivity|rewrite !bind_ret_l].
  match goal with |- context [?x <=? 0] => destruct (x <=? 0) end.
  - reflexivity.
  - apply IH, Hrest.
Qed.

(** X2.  The current of the last sample never enters the integration:
    step [i] moves the charge of sample [i - 1], so two series that differ
    in their last current only have the same trajectory and discharge
    time. *)
Theorem integrate_ignores_last_current (cs : list float) (c c' : float)
    (times : option (list pynum)) (start_soc : float) :
  outcome (physics_integrate_soc (cs ++ [c]) times start_soc) =
  outcome (physics_integrate_soc (cs ++ [c']) times start_soc).
Proof.
  rewrite !physics_integrate_soc_outcome, !length_app. simpl length.
  f_equal. apply integrate_loop_last_current.
  apply Forall_forall. intros i Hi. apply in_seq in Hi. lia.
Qed.

End IntegratorEdges.

Section LoopValues.

Variable currents : list float.
Variable ts : list pynum.
Variable n : nat.
Hypothesis currents_length : length currents = n.
Hypothesis ts_length : length ts = n.

(** What a step that does not stop appends: the value itself below 100,
    and 100 from there on and for a NaN. *)
Lemma ceil_clamp_cases (x : float) :
  (x <=? 0) = false ->
  ceil_clamp x = if 100 <=? x then 100 else if x <? 100 then x else 100.
Proof.
  intros H. unfold ceil_clamp. destruct (100 <=? x); [reflexivity|].
  unfold clamp_0_100, py_min. destruct (x <? 100) eqn:E; [|reflexivity].
  unfold py_max. now rewrite (not_leb_0_ltb _ _ H E).
Qed.

Lemma integrate_loop_values (k : nat) : forall (i : nat) (phys : list float),
  (1 <= i)%nat -> (i + k = n)%nat -> length phys = i ->
  exists suffix d,
    outcome (integrate_loop currents ts (seq i k) phys) = inr (phys ++ suffix, d) /\
    forall j, (i <= j < length (phys ++ suffix))%nat ->
      nth j (phys ++ suffix) 0 =
      stored_value (next_soc_at currents ts (phys ++ suffix) j).
Proof.
  induction k as [|k IH]; intros i phys Hi Hk Hlen.
  - exists [], (py_float (nth (n - 1) ts (PyInt 0))). simpl seq.
    rewrite (integrate_loop_done currents ts n) by (assumption || lia).
    rewrite app_nil_r. split; [reflexivity|]. intros j Hj. lia.
  - simpl seq.
    rewrite (integrate_loop_step currents ts n) by (assumption || lia).
    set (nx := step_next_soc _ _ _ _).
    assert (Hnx : forall suffix,
      next_soc_at currents ts (phys ++ suffix) i = nx).
    { intros suffix. unfold next_soc_at, nx.
      rewrite app_nth1 by lia. now rewrite Hlen. }
    cbv zeta. destruct (nx <=? 0) eqn:Enx.
    + exists [0], (py_float (nth i ts (PyInt 0))).
      split; [reflexivity|]. intros j Hj.
      rewrite length_app in Hj. simpl in Hj.
      assert (j = i) by lia. subst j.
      rewrite Hnx. unfold stored_value. rewrite Enx.
      rewrite app_nth2 by lia.
      now replace (i - length phys)%nat with 0%nat by lia.
    + destruct (IH (S i) (phys ++ [ceil_clamp nx])) as (suffix & d & Hout & Hval);
        [lia | lia | rewrite length_app; simpl; lia |].
      rewrite <- app_assoc in Hout, Hval. simpl app in Hout, Hval.
      exists (ceil_clamp nx :: suffix), d. split; [exact Hout|].
      intros j Hj. destruct (Nat.eq_dec j i) as [Hji|Hne].
      * rewrite Hji, Hnx. unfold stored_value. rewrite Enx.
        rewrite <- ceil_clamp_cases by exact Enx.
        rewrite app_nth2 by lia.
        now replace (i - length phys)%nat with 0%nat by lia.
      * apply Hval. lia.
Qed.

End LoopValues.

Section IntegratorValues.

(** X3.  Every element of the trajectory after the first is the
    coulomb-counting update of its predecessor, [nextSoc = previous +
    I * dt / (27 * 3600) * 100], stored as [0.0] when [nextSoc <= 0], as
    [nextSoc] itself when it is below 100, and as [100.0] otherwise, a NaN
    included. *)
Theorem integrate_trajectory_recurrence currents times start_soc :
  (1 <= length currents)%nat ->
  exists traj d,
    outcome (physics_integrate_soc currents times start_soc) = inr (traj, d) /\
    forall i, (1 <= i < length traj)%nat ->
      let next_soc :=
        next_soc_at currents (effective_times (length currents) times) traj i in
      nth i traj 0 =
      if next_soc <=? 0 then 0
      else if 100 <=? next_soc then 100
      else if next_soc <? 100 then next_soc
      else 100.
Proof.
  intros Hn. rewrite physics_integrate_soc_outcome.
  destruct (integrate_loop_values currents
              (effective_times (length currents) times) (length currents)
              eq_refl (effective_times_length _ _)
              (length currents - 1) 1%nat [start_soc])
    as (suffix & d & Hout & Hval); [lia|lia|reflexivity|].
  exists ([start_soc] ++ suffix), d. split; [exact Hout|].
  intros i Hi. apply Hval. lia.
Qed.

(** The statement on the constant discharge. *)
Lemma integrate_trajectory_recurrence_witness :
  exists traj d,
    outcome (physics_integrate_soc discharge_currents
               (Some ten_second_times) 100) = inr (traj, d) /\
    forall i, (1 <= i < length traj)%nat ->
      let next_soc :=
        next_soc_at discharge_currents
          (effective_times 5 (Some ten_second_times)) traj i in
      nth i traj 0 =
      if next_soc <=? 0 then 0
      else if 100 <=? next_soc then 100
      else if next_soc <? 100 then next_soc
      else 100.
Proof.
  apply (integrate_trajectory_recurrence discharge_currents
           (Some ten_second_times) 100).
  simpl. lia.
Defined.

End IntegratorValues.

(** ** A pack at rest *)

Section FloatRest.

Lemma ltb_0_not_leb (x : float) : (0 <? x) = true -> (x <=? 0) = false.
Proof.
  rewrite ltb_spec, leb_spec. unfold SFltb, SFleb.
  rewrite (SFcompare_antisym (Prim2SF 0) (Prim2SF x)).
  destruct (SFcompare (Prim2SF 0) (Prim2SF x)) as [[]|]; simpl; congruence.
Qed.

Lemma leb_not_leb_ltb (x y : float) :
  (x <=? y) = true -> (y <=? x) = false -> (x <? y) = true.
Proof.
  rewrite !leb_spec, ltb_spec. unfold SFleb, SFltb.
  rewrite (SFcompare_antisym (Prim2SF x) (Prim2SF y)).
  destruct (SFcompare (Prim2SF x) (Prim2SF y)) as [[]|]; simpl; congruence.
Qed.

Lemma leb_antisym_100 (x : float) :
  (x <=? 100) = true -> (100 <=? x) = true -> x = 100.
Proof.
  rewrite !leb_spec. unfold SFleb.
  rewrite (SFcompare_antisym (Prim2SF x) (Prim2SF 100)).
  destruct (SFcompare (Prim2SF x) (Prim2SF 100)) as [[]|] eqn:E;
    try discriminate.
  intros _ _. apply Prim2SF_inj. rewrite Prim2SF_100 in *.
  destruct (Prim2SF x) as [s|s| |s m e].
  - destruct s; vm_compute in E; discriminate.
  - destruct s; vm_compute in E; discriminate.
  - vm_compute in E; discriminate.
  - apply SFcompare_finite_Eq in E. now destruct E as [-> [-> ->]].
Qed.

(** A value of (0, 100] goes through the ceiling test and the clamp
    unchanged. *)
Lemma ceil_clamp_fixed (x : float) :
  (0 <? x) = true -> (x <=? 100) = true -> ceil_clamp x = x.
Proof.
  intros H0 H100. rewrite ceil_clamp_cases by now apply ltb_0_not_leb.
  destruct (100 <=? x) eqn:E.
  - symmetry. now apply leb_antisym_100.
  - now rewrite (leb_not_leb_ltb _ _ H100 E).
Qed.

(** No current over a finite time moves no charge: the increment is a
    zero. *)
Lemma delta_of_zero_current (c dt : float) :
  (c =? 0) = true -> is_finite dt = true ->
  exists sg,
    Prim2SF ((c * dt) / (BATTERY_CAPACITY_AH * 3600.0) * 100.0) = S754_zero sg.
Proof.
  intros Hc Hdt.
  assert (Ec : exists sc, Prim2SF c = S754_zero sc).
  { rewrite FloatAxioms.eqb_spec, Prim2SF_0 in Hc. unfold SFeqb in Hc.
    destruct (Prim2SF c) as [s|s| |s m e]; simpl in Hc; try discriminate;
      [eauto | destruct s; discriminate | destruct s; discriminate]. }
  destruct Ec as [sc Ec].
  assert (Em : exists sm, Prim2SF (c * dt) = S754_zero sm).
  { rewrite mul_spec, Ec.
    destruct (is_finite_SF dt Hdt) as [[s ->]|[s [m [e ->]]]];
      cbv beta iota delta [SF64mul SFmul]; eauto. }
  destruct Em as [sm Em].
  rewrite mul_spec, div_spec, Em.
  assert (Ecap : exists m e,
    Prim2SF (BATTERY_CAPACITY_AH * 3600.0) = S754_finite false m e)
    by (vm_compute; eauto).
  destruct Ecap as (m & e & ->).
  rewrite Prim2SF_100.
  cbv beta iota delta [SF64mul SF64div SFmul SFdiv]. eauto.
Qed.

Lemma add_zero_r (x z : float) (sg : bool) :
  (0 <? x) = true -> Prim2SF z = S754_zero sg -> x + z = x.
Proof.
  intros Hx Hz. apply Prim2SF_inj. rewrite add_spec, Hz.
  rewrite ltb_spec, Prim2SF_0 in Hx. unfold SFltb in Hx.
  destruct (Prim2SF x) as [s|s| |s m e]; simpl in Hx; try discriminate;
    cbv beta iota delta [SF64add SFadd]; reflexivity.
Qed.

End FloatRest.

Section Rest.

Variable currents : list float.
Variable ts : list pynum.
Variable n : nat.
Variable s : float.
Hypothesis currents_length : length currents = n.
Hypothesis ts_length : length ts = n.
Hypothesis no_current : Forall (fun c => (c =? 0) = true) currents.
Hypothesis finite_steps : forall i, (1 <= i < n)%nat ->
  is_finite (py_float (py_sub (nth i ts (PyInt 0)) (nth (i - 1) ts (PyInt 0))))
  = true.
Hypothesis s_positive : (0 <? s) = true.
Hypothesis s_bounded : (s <=? 100) = true.

Lemma integrate_loop_rest (k : nat) : forall i,
  (1 <= i)%nat -> (i + k = n)%nat ->
  outcome (integrate_loop currents ts (seq i k) (repeat s i)) =
  inr (repeat s n, py_float (nth (n - 1) ts (PyInt 0))).
Proof.
  induction k as [|k IH]; intros i Hi Hk.
  - simpl seq. rewrite (integrate_loop_done currents ts n) by (assumption || lia).
    now replace i with n by lia.
  - simpl seq.
    rewrite (integrate_loop_step currents ts n)
      by (assumption || rewrite ?repeat_length; lia).
    rewrite repeat_length.
    rewrite (nth_indep (repeat s i) 0 s) by (rewrite repeat_length; lia).
    rewrite nth_repeat.
    assert (Hc : (nth (i - 1) currents 0 =? 0) = true).
    { apply (proj1 (Forall_forall _ _) no_current), nth_In. lia. }
    destruct (delta_of_zero_current _ _ Hc (finite_steps i ltac:(lia)))
      as [sg Hdelta].
    unfold step_next_soc. cbv zeta.
    rewrite (add_zero_r s _ sg s_positive Hdelta).
    rewrite (ltb_0_not_leb s s_positive).
    rewrite (ceil_clamp_fixed s s_positive s_bounded).
    rewrite <- repeat_cons. apply (IH (S i)); lia.
Qed.

End Rest.

Section IntegratorRest.

(** X4.  A pack at rest keeps its charge: when every current is zero, the
    time steps are finite and the start SOC lies in (0, 100], every element
    of the trajectory is the start SOC, all [N] steps are taken, and the
    discharge time is the last timestamp. *)
Theorem integrate_zero_current_is_constant currents times start_soc :
  let n := length currents in
  let ts := effective_times n times in
  (1 <= n)%nat ->
  Forall (fun c => (c =? 0) = true) currents ->
  (forall i, (1 <= i < n)%nat ->
     is_finite (py_float (py_sub (nth i ts (PyInt 0))
                            (nth (i - 1) ts (PyInt 0)))) = true) ->
  (0 <? start_soc) = true -> (start_soc <=? 100) = true ->
  outcome (physics_integrate_soc currents times start_soc) =
  inr (repeat start_soc n, py_float (nth (n - 1) ts (PyInt 0))).
Proof.
  intros n ts Hn Hzero Hfin H0 H100.
  rewrite physics_integrate_soc_outcome.
  apply (integrate_loop_rest currents ts n start_soc eq_refl
           (effective_times_length _ _) Hzero Hfin H0 H100 (n - 1) 1%nat);
    lia.
Qed.

(** The statement on three samples without timestamps, from 50 percent. *)
Lemma integrate_zero_current_is_constant_witness :
  outcome (physics_integrate_soc [0; 0; 0] None 50) = inr ([50; 50; 50], 2).
Proof.
  apply (integrate_zero_current_is_constant [0; 0; 0] None 50).
  - simpl. lia.
  - repeat constructor.
  - intros i Hi. simpl in Hi.
    destruct i as [|[|[|i]]]; [lia|reflexivity|reflexivity|lia].
  - reflexivity.
  - reflexivity.
Defined.

End IntegratorRest.

(** * Further properties of the predictor *)

Section PredictorErrors.

Variable tanh : float -> float.
Context `{blas : Np.Blas}.
Variable P : ModelParams.

(** X5.  Channels of different lengths are not the predictor's to check:
    [np.vstack] raises [ValueError] on them, after the entry line has been
    printed and before any parameter is read. *)
Theorem predict_raises_on_ragged_channels (currents temps voltages : list float) :
  length temps <> length currents \/ length voltages <> length currents ->
  run_neural_net_batch tanh P currents temps voltages =
  ([(BLUE, MsgRunningNN (length currents))], inl ValueError).
Proof.
  intros H. unfold run_neural_net_batch, forward, Np.vstack3.
  rewrite length_map.
  assert (E : ((length temps =? length currents)%nat
               && (length voltages =? length currents)%nat) = false).
  { apply andb_false_iff. rewrite !Nat.eqb_neq. exact H. }
  rewrite E. reflexivity.
Qed.

(** With upper bounds that are neither one nor three, the clamp of line 74
    does not broadcast. *)
Lemma forward_raises_on_bad_bounds (currents temps voltages : list float) :
  length temps = length currents -> length voltages = length currents ->
  length (x_max P) <> 3%nat -> length (x_max P) <> 1%nat ->
  forward tanh P currents temps voltages = raise ValueError.
Proof.
  intros Ht Hv H3 H1. unfold forward, Np.vstack3, clamp_inputs.
  rewrite length_map, Ht, Hv, Nat.eqb_refl. simpl andb. cbv iota.
  rewrite bind_ret_l. unfold Np.broadcast at 1. simpl length at 1.
  destruct (Np.to_float64 (x_max P)) as [|x [|y [|z [|w l]]]]; simpl in *;
    try contradiction; try reflexivity.
Qed.

(** X6.  A parameter bundle whose upper input bounds are neither one value
    nor three makes every single-point estimate fail: the predictor raises
    [ValueError] and the operation answers a null SOC. *)
Theorem predict_single_null_on_bad_bounds (data : InputData) :
  length (x_max P) <> 3%nat -> length (x_max P) <> 1%nat ->
  outcome (run_neural_net_batch tanh P
             [in_current data] [in_temperature data] [in_voltage data])
    = inl ValueError /\
  predict_single tanh P data =
  ([(BLUE, MsgSingleRequest (in_current data) (in_voltage data)
             (in_temperature data) (in_time data));
    (BLUE, MsgRunningNN 1);
    (RED, MsgErrorPredict ValueError)],
   inr {| soc_value := None |}).
Proof.
  intros H3 H1.
  pose proof (forward_raises_on_bad_bounds
                [in_current data] [in_temperature data] [in_voltage data]
                eq_refl eq_refl H3 H1) as Hf.
  split.
  - rewrite run_neural_net_batch_outcome, Hf. reflexivity.
  - unfold predict_single, run_neural_net_batch. rewrite Hf. reflexivity.
Qed.

Lemma clamp_0_100_twice (r : float) :
  clamp_0_100 (clamp_0_100 r) = clamp_0_100 r.
Proof.
  unfold clamp_0_100, py_min, py_max.
  destruct (r <? 100) eqn:E1; [|reflexivity].
  destruct (0 <? r) eqn:E2; [now rewrite E1, E2|reflexivity].
Qed.

(** X7.  On a bundle of valid shapes the single-point operation never
    answers null: it returns one value of [0, 100], the only value the
    predictor returns for the sample. *)
Theorem predict_single_answers_on_valid_bundle (data : InputData) :
  valid_shapes P = true ->
  exists v,
    outcome (run_neural_net_batch tanh P
               [in_current data] [in_temperature data] [in_voltage data])
      = inr [v] /\
    outcome (predict_single tanh P data) = inr {| soc_value := Some v |} /\
    in_0_100 v = true.
Proof.
  intros HP.
  destruct (forward_valid tanh P
              [in_current data] [in_temperature data] [in_voltage data]
              HP eq_refl eq_refl) as (Y & HY & Hshape).
  pose proof (flatten_one_row 1 _ (has_shape_map 1 1 (soc_percent P) Y Hshape))
    as Hlen.
  unfold predict_single.
  rewrite (run_neural_net_batch_trace_valid tanh P _ _ _ Y HY). cbv zeta.
  destruct (Np.flatten (map (map (soc_percent P)) Y)) as [|y [|w l]];
    try discriminate.
  exists (clamp_0_100 y). split; [reflexivity|]. split.
  - simpl. now rewrite clamp_0_100_twice.
  - apply clamp_0_100_range.
Qed.

End PredictorErrors.

(** The statement of X5 on two currents against one temperature. *)
Lemma predict_raises_on_ragged_channels_witness :
  run_neural_net_batch tanh_ref (blas := blas_ref) sample_bundle [0; 1] [25] [345.6; 340] =
  ([(BLUE, MsgRunningNN 2)], inl ValueError).
Proof.
  apply (predict_raises_on_ragged_channels tanh_ref (blas := blas_ref) sample_bundle
           [0; 1] [25] [345.6; 340]).
  left. simpl. lia.
Defined.

(** The statement of X6 on the bundle with two upper bounds. *)
Lemma predict_single_null_on_bad_bounds_witness :
  outcome (run_neural_net_batch tanh_ref (blas := blas_ref) short_bounds_bundle
             [in_current sample_point] [in_temperature sample_point]
             [in_voltage sample_point])
    = inl ValueError /\
  predict_single tanh_ref (blas := blas_ref) short_bounds_bundle sample_point =
  ([(BLUE, MsgSingleRequest (in_current sample_point) (in_voltage sample_point)
             (in_temperature sample_point) (in_time sample_point));
    (BLUE, MsgRunningNN 1);
    (RED, MsgErrorPredict ValueError)],
   inr {| soc_value := None |}).
Proof.
  apply (predict_single_null_on_bad_bounds tanh_ref (blas := blas_ref) short_bounds_bundle
           sample_point); simpl; lia.
Defined.

(** The statement of X7 on the sample bundle. *)
Lemma predict_single_answers_on_valid_bundle_witness :
  exists v,
    outcome (run_neural_net_batch tanh_ref (blas := blas_ref) sample_bundle
               [in_current sample_point] [in_temperature sample_point]
               [in_voltage sample_point])
      = inr [v] /\
    outcome (predict_single tanh_ref (blas := blas_ref) sample_bundle sample_point)
      = inr {| soc_value := Some v |} /\
    in_0_100 v = true.
Proof.
  apply (predict_single_answers_on_valid_bundle tanh_ref (blas := blas_ref) sample_bundle
           sample_point).
  reflexivity.
Defined.

(** ** Saturated inputs *)

Section Saturation.

Lemma leb_nan_l (a b : float) : is_nan a = true -> (a <=? b) = false.
Proof.
  intros H. rewrite leb_spec. unfold SFleb.
  destruct (Prim2SF a) as [s|s| |s m e] eqn:E; [| |reflexivity|];
    (assert (Hf : is_nan a = false) by (apply is_nan_SF; rewrite E; discriminate));
    congruence.
Qed.

(** Clamping a clamped value changes nothing, whatever the bounds. *)
Lemma saturate_twice (lo hi x : float) :
  saturate lo hi (saturate lo hi x) = saturate lo hi x.
Proof.
  unfold saturate, Np.maximum, Np.minimum.
  destruct (is_nan lo) eqn:Nlo.
  - now rewrite !orb_true_r.
  - rewrite !orb_false_r. destruct (is_nan hi) eqn:Nhi.
    + rewrite !orb_true_r. cbv iota. rewrite (leb_nan_l hi lo Nhi). cbv iota.
      rewrite ?orb_true_r. cbv iota. now rewrite ?(leb_nan_l hi lo Nhi).
    + rewrite !orb_false_r. destruct (hi <=? x) eqn:E1.
      * destruct (hi <=? lo) eqn:E2.
        -- now rewrite E2, E2.
        -- now rewrite (leb_refl hi Nhi), E2.
      * destruct (x <=? lo) eqn:E2.
        -- destruct (hi <=? lo) eqn:E3; [now rewrite E3|].
           now rewrite (leb_refl lo Nlo).
        -- now rewrite E1, E2.
Qed.

Variable tanh : float -> float.
Context `{blas : Np.Blas}.
Variable P : ModelParams.

Lemma clamp_inputs_explicit (c t v : list float) (lo0 lo1 lo2 hi0 hi1 hi2 : float) :
  Np.to_float64 (x_min P) = [lo0; lo1; lo2] ->
  Np.to_float64 (x_max P) = [hi0; hi1; hi2] ->
  clamp_inputs P [c; t; v] =
  ret [map (saturate lo0 hi0) c; map (saturate lo1 hi1) t;
       map (saturate lo2 hi2) v].
Proof.
  intros Hmin Hmax. unfold clamp_inputs. rewrite Hmin, Hmax.
  rewrite broadcast_rows by reflexivity. rewrite bind_ret_l.
  rewrite broadcast_rows by reflexivity.
  simpl Np.zip_with. now rewrite !map_map.
Qed.

(** X9.  Out-of-range inputs are saturated, not rejected: with three
    bounds on each side, the predictor returns for a batch what it returns
    when every current and every temperature has first been clamped to the
    bounds of its channel. *)
Theorem predict_saturation_invariant (currents temps voltages : list float) :
  length (x_min P) = 3%nat -> length (x_max P) = 3%nat ->
  run_neural_net_batch tanh P
    (map (saturate (nth 0 (x_min P) 0) (nth 0 (x_max P) 0)) currents)
    (map (saturate (nth 1 (x_min P) 0) (nth 1 (x_max P) 0)) temps)
    voltages =
  run_neural_net_batch tanh P currents temps voltages.
Proof.
  intros Hmin Hmax.
  destruct (Np.to_float64 (x_min P)) as [|lo0 [|lo1 [|lo2 [|? ?]]]] eqn:Emin; try discriminate.
  destruct (Np.to_float64 (x_max P)) as [|hi0 [|hi1 [|hi2 [|? ?]]]] eqn:Emax; try discriminate.
  simpl nth.
  unfold run_neural_net_batch, forward, Np.vstack3.
  rewrite !length_map.
  destruct ((length temps =? length currents)%nat
            && (length voltages =? length currents)%nat); [|reflexivity].
  rewrite !bind_ret_l.
  rewrite !(clamp_inputs_explicit _ _ _ lo0 lo1 lo2 hi0 hi1 hi2 Emin Emax).
  rewrite !map_map.
  rewrite (map_ext _ (saturate lo0 hi0) (saturate_twice lo0 hi0)).
  rewrite (map_ext _ (saturate lo1 hi1) (saturate_twice lo1 hi1)).
  reflexivity.
Qed.

End Saturation.

(** The statement of X9 on currents and temperatures far out of range. *)
Lemma predict_saturation_invariant_witness :
  run_neural_net_batch tanh_ref (blas := blas_ref) sample_bundle
    (map (saturate (-10) 10) [0; 1000; -1000])
    (map (saturate 0 50) [25; -300; 1e6])
    [345.6; 340; 330] =
  run_neural_net_batch tanh_ref (blas := blas_ref) sample_bundle
    [0; 1000; -1000] [25; -300; 1e6] [345.6; 340; 330].
Proof.
  apply (predict_saturation_invariant tanh_ref (blas := blas_ref) sample_bundle
           [0; 1000; -1000] [25; -300; 1e6] [345.6; 340; 330]);
    reflexivity.
Defined.

(** * Further properties of the trajectory operation *)

Section LoopGrowth.

Variable currents : list float.
Variable ts : list pynum.

(** Whatever the inputs, a loop that returns has kept [phys] and added at
    most one value per step. *)
Lemma integrate_loop_growth (steps : list nat) : forall phys traj d,
  outcome (integrate_loop currents ts steps phys) = inr (traj, d) ->
  exists suffix, traj = phys ++ suffix /\ (length suffix <= length steps)%nat.
Proof.
  induction steps as [|i rest IH]; intros phys traj d; simpl.
  - unfold index_last. destruct (rev ts); [discriminate|].
    rewrite bind_ret_l. intros [= <- _].
    exists []. now rewrite app_nil_r.
  - unfold index.
    destruct (nth_error ts i); [rewrite bind_ret_l|discriminate].
    destruct (nth_error ts (i - 1)); [rewrite bind_ret_l|discriminate].
    destruct (nth_error currents (i - 1)); [rewrite bind_ret_l|discriminate].
    unfold index_last.
    destruct (rev phys); [discriminate|rewrite bind_ret_l].
    match goal with |- context [?x <=? 0] => destruct (x <=? 0) end.
    + intros [= <- _]. exists [0]. split; [reflexivity|simpl; lia].
    + intros H. destruct (IH _ _ _ H) as (suffix & -> & Hlen).
      eexists. rewrite <- app_assoc. split; [reflexivity|]. simpl. lia.
Qed.

End LoopGrowth.

Section CycleFacts.

Variable tanh : float -> float.
Context `{blas : Np.Blas}.
Variable P : ModelParams.

Lemma physics_integrate_soc_length currents times start_soc traj d :
  outcome (physics_integrate_soc currents times start_soc) = inr (traj, d) ->
  (1 <= length traj <= length currents)%nat.
Proof.
  rewrite physics_integrate_soc_outcome. intros H.
  destruct currents as [|c cs].
  - assert (E : effective_times 0 times = []).
    { apply length_zero_iff_nil, effective_times_length. }
    simpl in H. rewrite E in H. discriminate.
  - destruct (integrate_loop_growth _ _ _ _ _ _ H) as (suffix & -> & Hlen).
    rewrite length_seq in Hlen. rewrite length_app. simpl in *. lia.
Qed.

Lemma fuse_range (phys_socs nn_socs : list float) :
  Forall (fun x => in_0_100 x = true) (fuse phys_socs nn_socs).
Proof.
  unfold fuse. apply Forall_map, Forall_forall.
  intros idx _. apply fuse_at_range.
Qed.

(** X10.  The trajectory operation always answers, whatever the bundle and
    the request.  In its answer the count is the length of the SOC list,
    which never exceeds the number of samples; every SOC lies in
    [0, 100]; and the discharge time is absent exactly when the SOC list
    is empty. *)
Theorem cycle_response_invariant (data : DriveCycleData) :
  exists resp,
    outcome (predict_cycle tanh P data) = inr resp /\
    total_points resp = length (soc resp) /\
    (total_points resp <= length (current data))%nat /\
    Forall (fun x => in_0_100 x = true) (soc resp) /\
    (discharge_time resp = None <-> soc resp = []).
Proof.
  assert (Hempty :
    total_points empty_response = length (soc empty_response) /\
    (total_points empty_response <= length (current data))%nat /\
    Forall (fun x => in_0_100 x = true) (soc empty_response) /\
    (discharge_time empty_response = None <-> soc empty_response = [])).
  { simpl. repeat split; auto; lia. }
  unfold predict_cycle.
  rewrite outcome_bind. simpl outcome at 1. cbv iota.
  rewrite outcome_try_except.
  destruct (negb _).
  - exists empty_response. split; [reflexivity|exact Hempty].
  - rewrite outcome_bind.
    destruct (outcome (run_neural_net_batch tanh P _ _ _)) as [e|nn_socs].
    + exists empty_response. split; [reflexivity|exact Hempty].
    + rewrite outcome_bind.
      destruct (outcome (physics_integrate_soc _ _ _)) as [e|[traj d]] eqn:Hphys.
      * exists empty_response. split; [reflexivity|exact Hempty].
      * apply physics_integrate_soc_length in Hphys.
        eexists. split; [reflexivity|]. simpl.
        rewrite fuse_length.
        split; [reflexivity|]. split; [lia|]. split; [apply fuse_range|].
        split; [discriminate|].
        intros E. apply (f_equal (@length float)) in E.
        rewrite fuse_length in E. simpl in E. lia.
Qed.

(** X11.  An empty request is answered with the empty result, on every
    bundle of valid shapes: the predictor returns no value, the start SOC
    falls back to 100, the integrator raises [IndexError] on its empty
    time basis, and the endpoint turns the exception into the empty
    result. *)
Theorem cycle_empty_request (data : DriveCycleData) :
  valid_shapes P = true ->
  current data = [] -> voltage data = [] -> temperature data = [] ->
  predict_cycle tanh P data =
  ([(BLUE, MsgBatchRequest 0); (BLUE, MsgRunningNN 0);
    (YELLOW, MsgNNOutput []); (BLUE, MsgPhysicsStart 100);
    (YELLOW, MsgNoValidTime); (RED, MsgErrorSimulate IndexError)],
   inr empty_response).
Proof.
  intros HP Hc Hv Ht.
  destruct (run_neural_net_batch_valid tanh P [] [] [] HP eq_refl eq_refl)
    as (r & Hr & Hlen & _).
  destruct r; [|discriminate].
  unfold predict_cycle. rewrite Hc, Hv, Ht, Hr.
  assert (Etimes : choose_times (length (@nil float)) (time data) = None).
  { destruct (time data) as [[|x l]|]; reflexivity. }
  rewrite Etimes. reflexivity.
Qed.

(** X12.  On a bundle of valid shapes and a nonempty request of matching
    lengths, the answer is the fusion of the two models: the predictor
    returns a nonempty list, the integrator started from its first value
    returns a trajectory and a discharge time, and the response carries
    their fusion, that discharge time, and the length of the physics
    trajectory as count. *)
Theorem cycle_composes_predictor_and_integrator (data : DriveCycleData) :
  valid_shapes P = true ->
  length (temperature data) = length (current data) ->
  length (voltage data) = length (current data) ->
  (1 <= length (current data))%nat ->
  exists first rest traj d,
    outcome (run_neural_net_batch tanh P
               (current data) (temperature data) (voltage data))
      = inr (first :: rest) /\
    outcome (physics_integrate_soc (current data)
               (choose_times (length (current data)) (time data)) first)
      = inr (traj, d) /\
    outcome (predict_cycle tanh P data) =
      inr {| soc := fuse traj (first :: rest);
             discharge_time := Some d;
             total_points := length traj |}.
Proof.
  intros HP Ht Hv Hn.
  destruct (run_neural_net_batch_valid tanh P _ _ _ HP Ht Hv)
    as (r & Hr & Hlen & Hrange).
  destruct r as [|first rest]; [simpl in Hlen; lia|].
  assert (Hfirst : in_0_100 first = true) by now inversion Hrange.
  assert (Hstart : choose_start_soc (first :: rest) = first).
  { unfold choose_start_soc. unfold in_0_100 in Hfirst. now rewrite Hfirst. }
  set (times := choose_times (length (current data)) (time data)).
  destruct (integrate_loop_spec (current data)
              (effective_times (length (current data)) times)
              (length (current data)) eq_refl (effective_times_length _ _)
              (length (current data) - 1) 1%nat [first])
    as (suffix & d & Hout & _); [lia|lia|reflexivity|].
  rewrite <- physics_integrate_soc_outcome in Hout.
  exists first, rest, ([first] ++ suffix), d.
  split; [now rewrite Hr|]. split; [exact Hout|].
  unfold predict_cycle.
  rewrite Ht, Hv, !Nat.eqb_refl. simpl negb. cbv iota.
  rewrite outcome_bind. simpl outcome at 1. cbv iota.
  rewrite outcome_try_except, Hr.
  rewrite outcome_bind. cbn [outcome snd]. cbv beta iota.
  rewrite Hstart. fold times.
  rewrite outcome_bind, Hout. cbv beta iota.
  now rewrite fuse_length.
Qed.

End CycleFacts.

(** The statement of X11 on the sample bundle. *)
Lemma cycle_empty_request_witness :
  predict_cycle tanh_ref (blas := blas_ref) sample_bundle
    {| current := []; voltage := []; temperature := []; time := Some [1; 2] |} =
  ([(BLUE, MsgBatchRequest 0); (BLUE, MsgRunningNN 0);
    (YELLOW, MsgNNOutput []); (BLUE, MsgPhysicsStart 100);
    (YELLOW, MsgNoValidTime); (RED, MsgErrorSimulate IndexError)],
   inr empty_response).
Proof.
  apply (cycle_empty_request tanh_ref (blas := blas_ref) sample_bundle); reflexivity.
Defined.

(** The statement of X12 on three samples. *)
Lemma cycle_composes_predictor_and_integrator_witness :
  exists first rest traj d,
    outcome (run_neural_net_batch tanh_ref (blas := blas_ref) sample_bundle
               (current sample_cycle) (temperature sample_cycle)
               (voltage sample_cycle))
      = inr (first :: rest) /\
    outcome (physics_integrate_soc (current sample_cycle)
               (choose_times (length (current sample_cycle))
                  (time sample_cycle)) first)
      = inr (traj, d) /\
    outcome (predict_cycle tanh_ref (blas := blas_ref) sample_bundle sample_cycle) =
      inr {| soc := fuse traj (first :: rest);
             discharge_time := Some d;
             total_points := length traj |}.
Proof.
  apply (cycle_composes_predictor_and_integrator tanh_ref (blas := blas_ref) sample_bundle
           sample_cycle).
  - reflexivity.
  - reflexivity.
  - reflexivity.
  - simpl. lia.
Defined.

Section DischargeTime.

(** X13.  The discharge time is always the timestamp of the last element
    of the trajectory: the timestamp of the stopping step after a
    discharge, the last timestamp of the series otherwise; without usable
    timestamps it is the index of that element. *)
Theorem integrate_discharge_time_is_last_timestamp currents times start_soc :
  (1 <= length currents)%nat ->
  exists traj d,
    outcome (physics_integrate_soc currents times start_soc) = inr (traj, d) /\
    d = py_float (nth (length traj - 1)
                    (effective_times (length currents) times) (PyInt 0)) /\
    (times = None -> d = float_of_Z (Z.of_nat (length traj - 1))).
Proof.
  intros Hn. rewrite physics_integrate_soc_outcome.
  destruct (integrate_loop_spec currents
              (effective_times (length currents) times) (length currents)
              eq_refl (effective_times_length _ _)
              (length currents - 1) 1%nat [start_soc])
    as (suffix & d & Hout & _ & _ & Hcases); [lia|lia|reflexivity|].
  exists ([start_soc] ++ suffix), d. split; [exact Hout|].
  assert (Hd : d = py_float (nth (length ([start_soc] ++ suffix) - 1)
                    (effective_times (length currents) times) (PyInt 0))).
  { destruct Hcases as [(_ & Hl & Hd)|(j & Hj & _ & _ & Hl & Hd & _)];
      rewrite Hl, Hd; f_equal; f_equal; lia. }
  split; [exact Hd|].
  intros ->. rewrite Hd. simpl effective_times.
  assert (Hlen : (length ([start_soc] ++ suffix) - 1 < length currents)%nat).
  { destruct Hcases as [(_ & Hl & _)|(j & Hj & _ & _ & Hl & _)]; rewrite Hl; lia. }
  now rewrite range_nth.
Qed.

(** The statement on the constant discharge without timestamps. *)
Lemma integrate_discharge_time_is_last_timestamp_witness :
  exists traj d,
    outcome (physics_integrate_soc discharge_currents None 100) = inr (traj, d) /\
    d = py_float (nth (length traj - 1) (effective_times 5 None) (PyInt 0)) /\
    (@None (list pynum) = None -> d = float_of_Z (Z.of_nat (length traj - 1))).
Proof.
  apply (integrate_discharge_time_is_last_timestamp discharge_currents None 100).
  simpl. lia.
Defined.

End DischargeTime.
